(** * elopic: the rating store and its reconciliation with a directory

    A shallow embedding of [elopic/data/elopicdb.py] (class [EloPicDB]) and
    the properties of its record store: uniqueness of records, new-record
    initialisation, schema migration, idempotent reconciliation, rating
    updates and the seen counter, the ignore flag, the top-x query and the
    way errors travel (or do not travel) to the caller.

    The program is Python 2 code ([err.message] is read and assigned on
    built-in exceptions) on top of TinyDB.  Python values are modelled by
    [pyval], a document (a Python [dict]) by a [gmap string pyval], a TinyDB
    table by the list of its documents in iteration order, and a method of
    [EloPicDB] by a state-and-exception computation over the object. *)

From Stdlib Require Import ZArith String Ascii List Bool Lia.
From Stdlib Require Import Sorting.Sorted Sorting.Permutation.
From Stdlib Require Import Structures.OrderedTypeEx.
From stdpp Require Import base decidable option list gmap strings fin_maps.

Open Scope string_scope.
Open Scope Z_scope.

(** ** Python values and exceptions *)

Module Py.

(** The values that occur in a document: numbers and strings. *)
Inductive pyval : Type :=
  | VInt (z : Z)
  | VStr (s : string).

#[global] Instance pyval_eq_dec : EqDecision pyval.
Proof. solve_decision. Defined.

(** [a == b] *)
Definition py_eq (a b : pyval) : bool := bool_decide (a = b).

(** [a < b] as Python 2 orders numbers and strings: numbers by value,
    strings by their characters, every number below every string. *)
Definition py_lt (a b : pyval) : bool :=
  match a, b with
  | VInt x, VInt y => x <? y
  | VInt _, VStr _ => true
  | VStr _, VInt _ => false
  | VStr s, VStr t => String.ltb s t
  end.

(** The exception classes the store can raise. *)
Inductive exc_class : Type :=
  | ValueError | IndexError | KeyError | TypeError | EloPicDBError.

(** An exception object: its class and its [message] attribute. *)
Record exc : Type := mk_exc { exc_type : exc_class; message : string }.

Definition set_message (err : exc) (msg : string) : exc :=
  {| exc_type := exc_type err; message := msg |}.

(** What a call does: it returns a value or raises. *)
Inductive outcome (A : Type) : Type :=
  | Returns (a : A)
  | Raises (err : exc).
Arguments Returns {A} a.
Arguments Raises {A} err.

(** A Python [dict] with string keys. *)
Abbreviation dict := (gmap string pyval).

(** [d[k]] *)
Definition dict_getitem (d : dict) (k : string) : outcome pyval :=
  match d !! k with
  | Some v => Returns v
  | None => Raises (mk_exc KeyError k)
  end.

(** [k in d] *)
Definition dict_contains (k : string) (d : dict) : bool :=
  match d !! k with Some _ => true | None => false end.

(** [l[i]] for [0 <= i] *)
Definition list_getitem {A} (l : list A) (i : nat) : outcome A :=
  match l !! i with
  | Some a => Returns a
  | None => Raises (mk_exc IndexError "list index out of range")
  end.

(** [l[:x]] *)
Definition slice_to {A} (x : Z) (l : list A) : list A :=
  if 0 <=? x then take (Z.to_nat x) l
  else take (Z.to_nat (Z.of_nat (length l) + x)) l.

(** [s.lower()] on a byte string. *)
Definition lower_ascii (c : ascii) : ascii :=
  let n := nat_of_ascii c in
  if ((65 <=? n) && (n <=? 90))%nat then ascii_of_nat (n + 32) else c.

Fixpoint lower (s : string) : string :=
  match s with
  | EmptyString => EmptyString
  | String c s' => String (lower_ascii c) (lower s')
  end.

(** [s.endswith(suffix)] *)
Definition endswith (s suffix : string) : bool :=
  let n := String.length s in
  let m := String.length suffix in
  ((m <=? n)%nat && String.eqb (substring (n - m) m s) suffix).

(** [s.startswith(prefix)] *)
Definition startswith (s pre : string) : bool := String.prefix pre s.

(** [posixpath.join(a, b)] *)
Definition path_join (a b : string) : string :=
  if startswith b "/" then b
  else if (String.eqb a "" || endswith a "/") then a +:+ b
  else a +:+ "/" +:+ b.

(** [for x in l: acc.append(f(x))], stopping at the first raise. *)
Fixpoint collect {A B} (f : A -> outcome B) (l : list A) : outcome (list B) :=
  match l with
  | [] => Returns []
  | x :: l' =>
      match f x with
      | Raises err => Raises err
      | Returns y =>
          match collect f l' with
          | Raises err => Raises err
          | Returns ys => Returns (y :: ys)
          end
      end
  end.

(** A stable sort into ascending order that compares with [<] only, as
    [list.sort] does: an element goes in front of the first one that is not
    below it. *)
Fixpoint insort {A} (ltb : A -> A -> bool) (x : A) (l : list A) : list A :=
  match l with
  | [] => [x]
  | y :: l' => if ltb y x then y :: insort ltb x l' else x :: y :: l'
  end.

Fixpoint stable_sort {A} (ltb : A -> A -> bool) (l : list A) : list A :=
  match l with
  | [] => []
  | x :: l' => insort ltb x (stable_sort ltb l')
  end.

(** [sorted(l, key=key, reverse=reverse)]: the keys are computed first (a
    key that raises aborts the call); a reverse sort reverses the list,
    sorts it stably upwards and reverses the result. *)
Definition sorted {A} (key : A -> outcome pyval) (reverse : bool)
    (l : list A) : outcome (list A) :=
  match collect (fun a => match key a with
                          | Returns k => Returns (k, a)
                          | Raises err => Raises err
                          end) l with
  | Raises err => Raises err
  | Returns kl =>
      let by_key := fun p q : pyval * A => py_lt (fst p) (fst q) in
      let s := if reverse then rev (stable_sort by_key (rev kl))
               else stable_sort by_key kl in
      Returns (List.map snd s)
  end.

(** [operator.itemgetter(k)] *)
Definition itemgetter (k : string) (d : dict) : outcome pyval :=
  dict_getitem d k.

End Py.
Import Py.

(** ** TinyDB

    What the store uses of TinyDB, as a model of the library: a table is the
    list of its documents in the order [all()] yields them, and [insert]
    adds at the end.  Element ids play no part in the store's code and are
    left out.  Every operation reads the whole table and writes it back, so
    an update whose transformation raises leaves the table as it was. *)

Module TinyDB.

Abbreviation table := (list dict).

(** A query [where(field) == v]: false on a document without the field. *)
Definition where_eq (field : string) (v : pyval) (d : dict) : bool :=
  match d !! field with
  | Some w => py_eq w v
  | None => false
  end.

(** [db.all()] *)
Definition all (t : table) : list dict := t.

(** [db.search(cond)] *)
Definition search (cond : dict -> bool) (t : table) : list dict :=
  List.filter cond t.

(** [db.get(cond)]: the first match, or [None]. *)
Definition get (cond : dict -> bool) (t : table) : option dict :=
  head (search cond t).

(** [db.insert(d)] *)
Definition insert (d : dict) (t : table) : table := t ++ [d].

(** [db.update(fields, cond)] with a dict of fields: [dict.update] on every
    matching document. *)
Definition update (fields : dict) (cond : dict -> bool) (t : table) : table :=
  List.map (fun d => if cond d then fields ∪ d else d) t.

(** [db.update(transform, cond)] with a callable. *)
Fixpoint update_with (transform : dict -> outcome dict) (cond : dict -> bool)
    (t : table) : outcome table :=
  match t with
  | [] => Returns []
  | d :: t' =>
      if cond d then
        match transform d with
        | Returns d' =>
            match update_with transform cond t' with
            | Returns t'' => Returns (d' :: t'')
            | Raises err => Raises err
            end
        | Raises err => Raises err
        end
      else
        match update_with transform cond t' with
        | Returns t'' => Returns (d :: t'')
        | Raises err => Raises err
        end
  end.

(** [tinydb.operations.increment(field)]: [element[field] += 1] *)
Definition increment (field : string) (d : dict) : outcome dict :=
  match d !! field with
  | None => Raises (mk_exc KeyError field)
  | Some (VInt n) => Returns (<[field := VInt (n + 1)]> d)
  | Some (VStr _) =>
      Raises (mk_exc TypeError "cannot concatenate 'str' and 'int' objects")
  end.

(** The file behind [TinyDB(db_path)]. *)
Inductive db_file : Type :=
  | NoFile
  | Corrupt (why : string)
  | Stored (t : table).

(** [TinyDB(db_path)]: a missing file is created empty, an unparseable one
    raises [ValueError]. *)
Definition open (f : db_file) : outcome table :=
  match f with
  | NoFile => Returns []
  | Corrupt why => Raises (mk_exc ValueError why)
  | Stored t => Returns t
  end.

End TinyDB.

(** ** The store: class [EloPicDB] *)

Module EloPic.

Definition ELOPIC_DB_NAME : string := "elopic.data".
Definition ELOPIC_EXTENSIONS : list string := [".jpg"; ".jpeg"].

Definition dquote : string := String (ascii_of_nat 34) EmptyString.
Definition newline : string := String (ascii_of_nat 10) EmptyString.

(** An [EloPicDB] object whose database has been opened. *)
Record EloPicDB : Type := mk_EloPicDB { _db : TinyDB.table; _dir : string }.

(** A method body: it may change the object, and returns or raises. *)
Definition M (A : Type) : Type := EloPicDB -> EloPicDB * outcome A.

Definition ret {A} (a : A) : M A := fun self => (self, Returns a).

Definition bind {A B} (m : M A) (k : A -> M B) : M B :=
  fun self =>
    match m self with
    | (self', Returns a) => k a self'
    | (self', Raises err) => (self', Raises err)
    end.

Definition raise {A} (err : exc) : M A := fun self => (self, Raises err).

(** [try: body / except Exception as err: handler] *)
Definition try_except {A} (body : M A) (handler : exc -> M A) : M A :=
  fun self =>
    match body self with
    | (self', Returns a) => (self', Returns a)
    | (self', Raises err) => handler err self'
    end.

Definition lift {A} (o : outcome A) : M A := fun self => (self, o).

(** Reading [self._db], writing it, and writing it unless the operation
    raises. *)
Definition db_read {A} (f : TinyDB.table -> A) : M A :=
  fun self => (self, Returns (f (_db self))).

Definition db_write (f : TinyDB.table -> TinyDB.table) : M unit :=
  fun self => ({| _db := f (_db self); _dir := _dir self |}, Returns tt).

Definition db_try_write (f : TinyDB.table -> outcome TinyDB.table) : M unit :=
  fun self =>
    match f (_db self) with
    | Returns t => ({| _db := t; _dir := _dir self |}, Returns tt)
    | Raises err => (self, Raises err)
    end.

Definition self_dir : M string := fun self => (self, Returns (_dir self)).

Notation "'let!' x ':=' m 'in' k" := (bind m (fun x => k))
  (at level 10, x name, m at level 100, k at level 200).
Notation "m '>>' k" := (bind m (fun _ => k))
  (at level 90, right associativity).

(** [if c: body] *)
Definition when (c : bool) (body : M unit) : M unit :=
  if c then body else ret tt.

(** [for x in l: body(x)], with what each round returns. *)
Fixpoint for_in {A B} (l : list A) (body : A -> M B) : M (list B) :=
  match l with
  | [] => ret []
  | x :: l' =>
      let! y := body x in
      let! ys := for_in l' body in
      ret (y :: ys)
  end.

Section Store.

(** [elopic.logic.elo.INITIAL_ELO_SCORE]: the module is not among the
    sources, the constant is taken as given. *)
Variable INITIAL_ELO_SCORE : pyval.

(** The record [_validate_image] inserts for a new image. *)
Definition new_record (image_path : string) : dict :=
  {[ "path" := VStr image_path;
     "rating" := INITIAL_ELO_SCORE;
     "seen_count" := VInt 0;
     "ignore" := VInt 0 ]}.

Definition _validate_image (image_path : string) : M unit :=
  let Image_path := TinyDB.where_eq "path" (VStr image_path) in
  let! result := db_read (TinyDB.search Image_path) in
  when (length result =? 0)%nat
    (db_write (TinyDB.insert (new_record image_path))) >>
  when (1 <? length result)%nat
    (raise (mk_exc EloPicDBError
       ("Multiple entries for the same image: " +:+ dquote +:+ image_path
          +:+ dquote +:+ "."))) >>
  let! first := lift (list_getitem result 0) in
  when (negb (dict_contains "seen_count" first))
    (db_write (TinyDB.update {[ "seen_count" := VInt 0 ]} Image_path)) >>
  let! first := lift (list_getitem result 0) in
  when (negb (dict_contains "ignore" first))
    (db_write (TinyDB.update {[ "ignore" := VInt 0 ]} Image_path)) >>
  ret tt.

(** [any(img.lower().endswith(ext) for ext in ELOPIC_EXTENSIONS)] *)
Definition is_image (img : string) : bool :=
  existsb (fun ext => endswith (lower img) ext) ELOPIC_EXTENSIONS.

(** One round of the loop of [validate].  The source's round returns
    nothing; the value returned here is the exception the handler caught, as
    the handler leaves it, so that theorems can tell what is dropped. *)
Definition validate_round (img : string) : M (option exc) :=
  if is_image img then
    try_except
      (let! d := self_dir in
       _validate_image (path_join d img) >> ret None)
      (fun err =>
         let err := set_message err
           ("Error while validating " +:+ img +:+ ": " +:+ message err) in
         ret (Some err))
  else ret None.

(** [validate], given what [listdir(self._dir)] returns. *)
Definition validate (listing : list string) : M unit :=
  for_in listing validate_round >> ret tt.

(** A directory as [load_from_disk] finds it: its absolute path, what
    [listdir] returns for it, and the [elopic.data] file in it. *)
Record directory : Type := mk_directory {
  dir_abspath : string;
  dir_listing : list string;
  dir_data : TinyDB.db_file
}.

(** [load_from_disk directory]: the argument is an existing directory (the
    [assert]) whose [abspath] is [dir_abspath].  The method sets both fields
    of the object, so the object is its result. *)
Definition load_from_disk (D : directory) : outcome EloPicDB :=
  let dir := dir_abspath D in
  let db_path := path_join dir ELOPIC_DB_NAME in
  match TinyDB.open (dir_data D) with
  | Raises err =>
      Raises (set_message err
        ("Unable to read " +:+ db_path +:+ ": " +:+ message err +:+ newline))
  | Returns db =>
      let self := {| _db := db; _dir := dir |} in
      match try_except (validate (dir_listing D))
              (fun err =>
                 let err := set_message err
                   ("Error while validating elopic.data in " +:+ dir +:+ ": "
                      +:+ message err) in
                 ret tt) self with
      | (self', Returns _) => Returns self'
      | (_, Raises err) => Raises err
      end
  end.

Definition get_rating (image_path : string) : M pyval :=
  let Image_path := TinyDB.where_eq "path" (VStr image_path) in
  let! image := db_read (TinyDB.get Image_path) in
  match image with
  | Some image => lift (dict_getitem image "rating")
  | None =>
      raise (mk_exc TypeError
               "'NoneType' object has no attribute '__getitem__'")
  end.

Definition update_rating (image_path : string) (rating : pyval) : M unit :=
  let Image_path := TinyDB.where_eq "path" (VStr image_path) in
  db_write (TinyDB.update {[ "rating" := rating ]} Image_path) >>
  db_try_write (TinyDB.update_with (TinyDB.increment "seen_count") Image_path).

Definition get_all : M (list dict) :=
  db_read (TinyDB.search (TinyDB.where_eq "ignore" (VInt 0))).

Definition to_list : M (list (list pyval)) :=
  let! entries := db_read TinyDB.all in
  lift (collect (fun entry =>
          collect (dict_getitem entry)
            ["path"; "seen_count"; "rating"; "ignore"]) entries).

Definition get_top_x_filepaths_by_rating (x : Z) : M (list pyval) :=
  let! all := get_all in
  let! ranked := lift (sorted (itemgetter "rating") true all) in
  let top_x := slice_to x ranked in
  lift (collect (fun item => dict_getitem item "path") top_x).

Definition ignore_pictures (images_to_ignore : list string) : M unit :=
  for_in images_to_ignore (fun image_path =>
    db_write (TinyDB.update {[ "ignore" := VInt 1 ]}
                (TinyDB.where_eq "path" (VStr image_path)))) >>
  ret tt.

(** [settings.STRATEGY]: the settings module is not among the sources, the
    strategy is taken as given.  A strategy that draws at random is, in each
    run, one such function. *)
Variable STRATEGY : list dict -> Z -> list dict.

Definition get_random_images (count : Z) : M (list dict) :=
  let! all := get_all in
  let images := STRATEGY all count in
  ret images.

(** [get_headers]: [keys()] is returned as a set, the order of the keys of a
    dict being left open by the language. *)
Definition get_headers : M (gset string) :=
  let! entries := db_read TinyDB.all in
  let! first := lift (list_getitem entries 0) in
  ret (dom first).

End Store.

End EloPic.

(** ** Predicates and table-level views used by the statements *)

Module Props.
Import EloPic.

(** The query [Image.path == p]. *)
Definition has_path (p : string) : dict -> bool :=
  TinyDB.where_eq "path" (VStr p).

(** At most one record for every path. *)
Definition unique_paths (t : TinyDB.table) : Prop :=
  forall p : string, (length (TinyDB.search (has_path p) t) <= 1)%nat.

(** What the two migration steps of [_validate_image] make of a record. *)
Definition migrate (d : dict) : dict :=
  let d1 := if dict_contains "seen_count" d then d
            else {[ "seen_count" := VInt 0 ]} ∪ d in
  if dict_contains "ignore" d then d1 else {[ "ignore" := VInt 0 ]} ∪ d1.

(** What [_validate_image p] does to the table. *)
Definition validate_image_db (INITIAL_ELO_SCORE : pyval) (p : string)
    (t : TinyDB.table) : TinyDB.table :=
  match TinyDB.search (has_path p) t with
  | [] => TinyDB.insert (new_record INITIAL_ELO_SCORE p) t
  | [d] =>
      let t1 := if dict_contains "seen_count" d then t
                else TinyDB.update {[ "seen_count" := VInt 0 ]} (has_path p) t in
      if dict_contains "ignore" d then t1
      else TinyDB.update {[ "ignore" := VInt 0 ]} (has_path p) t1
  | _ => t
  end.

(** How [_validate_image p] ends. *)
Definition validate_image_outcome (p : string) (t : TinyDB.table)
    : outcome unit :=
  match TinyDB.search (has_path p) t with
  | [] => Raises (mk_exc IndexError "list index out of range")
  | [_] => Returns tt
  | _ => Raises (mk_exc EloPicDBError
           ("Multiple entries for the same image: " +:+ dquote +:+ p
              +:+ dquote +:+ "."))
  end.

(** What [validate] does to the table, for the object's directory. *)
Definition validate_db (INITIAL_ELO_SCORE : pyval) (dir : string)
    (listing : list string) (t : TinyDB.table) : TinyDB.table :=
  fold_left (fun t img =>
               if is_image img
               then validate_image_db INITIAL_ELO_SCORE (path_join dir img) t
               else t) listing t.

(** A path on which [_validate_image] has nothing left to do: it has a
    record, and when it has only one that one has both later fields. *)
Definition settled (p : string) (t : TinyDB.table) : Prop :=
  match TinyDB.search (has_path p) t with
  | [] => False
  | [d] => dict_contains "seen_count" d = true /\ dict_contains "ignore" d = true
  | _ => True
  end.

(** [b] is not ranked above [a]: the rating of [a] is not below that of
    [b]. *)
Definition rating_lt (a b : dict) : bool :=
  match a !! "rating", b !! "rating" with
  | Some x, Some y => py_lt x y
  | _, _ => false
  end.



(** The active records: those [get_all] returns. *)
Definition active (t : TinyDB.table) : list dict :=
  TinyDB.search (TinyDB.where_eq "ignore" (VInt 0)) t.

(** What [update_rating p r] does to the table: the rating is written, and
    the seen counters are written unless the increment raises. *)
Definition update_rating_db (p : string) (r : pyval) (t : TinyDB.table)
    : TinyDB.table :=
  let t1 := TinyDB.update {[ "rating" := r ]} (has_path p) t in
  match TinyDB.update_with (TinyDB.increment "seen_count") (has_path p) t1 with
  | Returns t2 => t2
  | Raises _ => t1
  end.

(** What [ignore_pictures ps] does to the table. *)
Definition ignore_pictures_db (ps : list string) (t : TinyDB.table)
    : TinyDB.table :=
  fold_left (fun t p => TinyDB.update {[ "ignore" := VInt 1 ]} (has_path p) t)
            ps t.

(** The paths of the records, in table order. *)
Definition path_values (t : TinyDB.table) : list pyval :=
  omap (fun d : dict => d !! "path") t.

(** The record at position [i] belongs to path [p] and has been seen [n]
    times. *)
Definition counted (p : string) (i : nat) (n : Z) (t : TinyDB.table) : Prop :=
  exists d, t !! i = Some d /\
            d !! "path" = Some (VStr p) /\
            d !! "seen_count" = Some (VInt n).

(** A record that one of the paths [ps] names. *)
Definition ignored_by (ps : list string) (d : dict) : bool :=
  existsb (fun p => has_path p d) ps.

(** A row of [to_list] once [ps] are ignored. *)
Definition ignore_row (ps : list string) (row : list pyval) : list pyval :=
  match row with
  | [pa; sc; ra; ig] =>
      [pa; sc; ra; if decide (pa ∈ List.map VStr ps) then VInt 1 else ig]
  | _ => row
  end.

(** The row [to_list] builds from an entry. *)
Definition row_of (entry : dict) : outcome (list pyval) :=
  collect (dict_getitem entry) ["path"; "seen_count"; "rating"; "ignore"].

(** The columns [to_list] reads from every entry, in its order. *)
Definition COLUMNS : list string := ["path"; "seen_count"; "rating"; "ignore"].

(** A record with all four columns. *)
Definition full_record (d : dict) : Prop :=
  Forall (fun k => is_Some (d !! k)) COLUMNS.

(** The image files of a listing, as record paths of directory [dir]. *)
Definition image_paths (dir : string) (listing : list string) : list string :=
  List.map (path_join dir) (List.filter is_image listing).

(** A record that [get_all] does not return. *)
Definition inactive (d : dict) : Prop :=
  TinyDB.where_eq "ignore" (VInt 0) d = false.

(** The calls a client makes on a loaded store; [CallLoadFromDisk] loads
    again from the directory the table was written to. *)
Inductive call : Type :=
  | CallLoadFromDisk (abspath : string) (listing : list string)
  | CallValidate (listing : list string)
  | CallUpdateRating (image_path : string) (rating : pyval)
  | CallIgnorePictures (images_to_ignore : list string).

(** The object after a call, whether the call returned or raised. *)
Definition after (INITIAL_ELO_SCORE : pyval) (c : call) (self : EloPicDB)
    : EloPicDB :=
  match c with
  | CallLoadFromDisk abspath listing =>
      match load_from_disk INITIAL_ELO_SCORE
              {| dir_abspath := abspath;
                 dir_listing := listing;
                 dir_data := TinyDB.Stored (_db self) |} with
      | Returns self' => self'
      | Raises _ => self
      end
  | CallValidate listing => fst (validate INITIAL_ELO_SCORE listing self)
  | CallUpdateRating p r => fst (update_rating p r self)
  | CallIgnorePictures ps => fst (ignore_pictures ps self)
  end.

Definition after_all (INITIAL_ELO_SCORE : pyval) (cs : list call)
    (self : EloPicDB) : EloPicDB :=
  fold_left (fun s c => after INITIAL_ELO_SCORE c s) cs self.

(** How often [update_rating] is called on [p] in a run. *)
Fixpoint updates_of (p : string) (cs : list call) : Z :=
  match cs with
  | [] => 0
  | CallUpdateRating q _ :: cs' =>
      (if String.eqb q p then 1 else 0) + updates_of p cs'
  | _ :: cs' => updates_of p cs'
  end.

(** The directory after a load: the table is in its [elopic.data]. *)
Definition written_back (D : directory) (self : EloPicDB) : directory :=
  {| dir_abspath := dir_abspath D;
     dir_listing := dir_listing D;
     dir_data := TinyDB.Stored (_db self) |}.

End Props.
Import Props.

(** ** Concrete directories and stores *)

Module Examples.
Import EloPic.

Definition initial_rating : pyval := VInt 1500.

(** A full record. *)
Definition record (p : string) (rating seen ignored : Z) : dict :=
  {[ "path" := VStr p; "rating" := VInt rating;
     "seen_count" := VInt seen; "ignore" := VInt ignored ]}.

(** A record as an old version wrote it. *)
Definition legacy_record : dict :=
  {[ "path" := VStr "/pics/a.jpg"; "rating" := VInt 1420 ]}.

(** A directory loaded for the first time. *)
Definition fresh_dir : directory :=
  {| dir_abspath := "/pics";
     dir_listing := ["a.jpg"; "B.JPEG"; "notes.txt"; "elopic.data"];
     dir_data := TinyDB.NoFile |}.

(** A directory with an old data file, the image still there. *)
Definition legacy_dir : directory :=
  {| dir_abspath := "/pics";
     dir_listing := ["a.jpg"; "elopic.data"];
     dir_data := TinyDB.Stored [legacy_record] |}.

(** The same data file after the image was deleted. *)
Definition stale_dir : directory :=
  {| dir_abspath := "/pics";
     dir_listing := ["elopic.data"];
     dir_data := TinyDB.Stored [legacy_record] |}.

(** A data file with two records for one image. *)
Definition duplicate_table : TinyDB.table :=
  [record "/pics/a.jpg" 1500 0 0; record "/pics/a.jpg" 1480 2 0].

Definition duplicate_dir : directory :=
  {| dir_abspath := "/pics";
     dir_listing := ["a.jpg"; "b.jpg"; "elopic.data"];
     dir_data := TinyDB.Stored duplicate_table |}.

(** An old data file with two records for the image. *)
Definition duplicate_legacy_dir : directory :=
  {| dir_abspath := "/pics";
     dir_listing := ["a.jpg"; "elopic.data"];
     dir_data := TinyDB.Stored [legacy_record; legacy_record] |}.

(** A loaded store with four records, one of them ignored. *)
Definition small_store : EloPicDB :=
  {| _db := [record "/pics/a.jpg" 1500 0 0; record "/pics/b.jpg" 1600 3 0;
             record "/pics/c.jpg" 1700 1 1; record "/pics/d.jpg" 1500 2 0];
     _dir := "/pics" |}.

End Examples.

(** ** Order on Python values *)

Section PyOrder.







End PyOrder.

(** ** The stable sort *)

Section StableSort.

Context {A : Type} (ltb : A -> A -> bool).

Hypothesis ltb_asym : forall a b, ltb a b = true -> ltb b a = false.
Hypothesis geb_trans :
  forall a b c, ltb b a = false -> ltb c b = false -> ltb c a = false.


Lemma insort_perm (x : A) (l : list A) : Permutation (insort ltb x l) (x :: l).
Proof.
  induction l as [|y l IH]; simpl; [done|].
  destruct (ltb y x); [|done].
  rewrite IH. apply perm_swap.
Qed.

Lemma stable_sort_perm (l : list A) : Permutation (stable_sort ltb l) l.
Proof.
  induction l as [|x l IH]; simpl; [done|].
  rewrite insort_perm. by constructor.
Qed.





End StableSort.

Section Reverse.

Context {A : Type}.




End Reverse.

(** ** Python helpers *)

Section PyLemmas.

Context {A B : Type}.


Lemma collect_Forall2 (f : A -> outcome B) (l : list A) (r : list B) :
  collect f l = Returns r -> Forall2 (fun a b => f a = Returns b) l r.
Proof.
  revert r. induction l as [|a l IH]; simpl; intros r H.
  - inversion H. constructor.
  - destruct (f a) eqn:Ea; [|done].
    destruct (collect f l) eqn:El; [|done].
    inversion H. constructor; [done | by apply IH].
Qed.

Lemma slice_to_take (x : Z) (l : list A) :
  0 <= x -> slice_to x l = take (Z.to_nat x) l.
Proof. intros Hx. unfold slice_to. by rewrite (proj2 (Z.leb_le 0 x) Hx). Qed.

End PyLemmas.

Section SortedByKey.

Context {A : Type} (f : A -> pyval).

Let dec (a : A) : pyval * A := (f a, a).
Let by_key (p q : pyval * A) : bool := py_lt (fst p) (fst q).







End SortedByKey.


(** ** The top-x query *)


(** ** Running the methods *)

Section Runs.

Variable INITIAL_ELO_SCORE : pyval.

Import EloPic.

Abbreviation new_record := (EloPic.new_record INITIAL_ELO_SCORE).
Abbreviation _validate_image := (EloPic._validate_image INITIAL_ELO_SCORE).
Abbreviation validate_round := (EloPic.validate_round INITIAL_ELO_SCORE).
Abbreviation validate := (EloPic.validate INITIAL_ELO_SCORE).
Abbreviation load_from_disk := (EloPic.load_from_disk INITIAL_ELO_SCORE).
Abbreviation validate_image_db := (Props.validate_image_db INITIAL_ELO_SCORE).
Abbreviation validate_db := (Props.validate_db INITIAL_ELO_SCORE).

Lemma validate_image_run (p : string) (self : EloPicDB) :
  _validate_image p self
  = ({| _db := validate_image_db p (_db self); _dir := _dir self |},
     validate_image_outcome p (_db self)).
Proof.
  destruct self as [t dir].
  unfold EloPic._validate_image, Props.validate_image_db, validate_image_outcome,
    bind, db_read, db_write, when, lift, raise, ret. simpl.
  fold (has_path p).
  destruct (TinyDB.search (has_path p) t) as [|d [|d' l]]; simpl; [done| |done].
  destruct (dict_contains "seen_count" d), (dict_contains "ignore" d); done.
Qed.

Lemma validate_round_run (img : string) (self : EloPicDB) :
  exists caught,
    validate_round img self
    = ({| _db := if is_image img
                 then validate_image_db (path_join (_dir self) img) (_db self)
                 else _db self;
          _dir := _dir self |},
       Returns caught).
Proof.
  unfold EloPic.validate_round. destruct (is_image img).
  - unfold try_except, bind, self_dir. rewrite validate_image_run.
    destruct (validate_image_outcome _ _); simpl; eauto.
  - destruct self. unfold ret. simpl. eauto.
Qed.

Lemma for_in_validate_round_run (listing : list string) (self : EloPicDB) :
  exists caught,
    for_in listing validate_round self
    = ({| _db := validate_db (_dir self) listing (_db self); _dir := _dir self |},
       Returns caught).
Proof.
  revert self. induction listing as [|img listing IH]; intros self.
  - destruct self. simpl. unfold ret. eauto.
  - simpl. unfold bind at 1.
    destruct (validate_round_run img self) as [c ->].
    unfold bind at 1.
    edestruct IH as [cs ->]. simpl. unfold ret. eauto.
Qed.

(** [validate] never raises, whatever its rounds ran into. *)
Lemma validate_run (listing : list string) (self : EloPicDB) :
  validate listing self
  = ({| _db := validate_db (_dir self) listing (_db self); _dir := _dir self |},
     Returns tt).
Proof.
  unfold EloPic.validate, bind.
  by destruct (for_in_validate_round_run listing self) as [cs ->].
Qed.

Lemma load_from_disk_run (D : directory) (t : TinyDB.table) :
  TinyDB.open (dir_data D) = Returns t ->
  load_from_disk D
  = Returns {| _db := validate_db (dir_abspath D) (dir_listing D) t;
               _dir := dir_abspath D |}.
Proof.
  intros Ht. unfold EloPic.load_from_disk. rewrite Ht.
  unfold try_except. by rewrite validate_run.
Qed.

End Runs.

(** ** Queries against updated tables *)

Section Tables.

Import EloPic.

Lemma filter_map_commute {A} (c : A -> bool) (g : A -> A) (l : list A) :
  (forall d, c (g d) = c d) ->
  List.filter c (List.map g l) = List.map g (List.filter c l).
Proof.
  intros Hg. induction l as [|d l IH]; [done|].
  simpl. rewrite Hg. destruct (c d); simpl; by rewrite IH.
Qed.

Lemma map_fixes {A} (g : A -> A) (l : list A) :
  (forall d, In d l -> g d = d) -> List.map g l = l.
Proof.
  intros Hg. rewrite <- (List.map_id l) at 2. by apply List.map_ext_in.
Qed.

Lemma where_eq_union (field : string) (v : pyval) (fields d : dict) :
  fields !! field = None ->
  TinyDB.where_eq field v (fields ∪ d) = TinyDB.where_eq field v d.
Proof.
  intros Hf. unfold TinyDB.where_eq. by rewrite lookup_union_r.
Qed.

(** [d.update({k: v})] read at [k], and at another key. *)
Lemma lookup_set_same (k : string) (v : pyval) (d : dict) :
  ({[ k := v ]} ∪ d) !! k = Some v.
Proof. apply lookup_union_Some_l, lookup_singleton_eq. Qed.

Lemma lookup_set_other (k k' : string) (v : pyval) (d : dict) :
  k <> k' -> ({[ k := v ]} ∪ d) !! k' = d !! k'.
Proof. intros Hk. apply lookup_union_r. by apply lookup_singleton_ne. Qed.

Lemma has_path_inj (p q : string) (d : dict) :
  has_path p d = true -> has_path q d = true -> p = q.
Proof.
  unfold has_path, TinyDB.where_eq, py_eq.
  destruct (d !! "path"); [|done].
  rewrite !bool_decide_eq_true. congruence.
Qed.

Lemma search_In (c : dict -> bool) (t : TinyDB.table) (d : dict) :
  In d (TinyDB.search c t) <-> In d t /\ c d = true.
Proof. apply List.filter_In. Qed.

Lemma search_insert (c : dict -> bool) (d : dict) (t : TinyDB.table) :
  TinyDB.search c (TinyDB.insert d t)
  = (TinyDB.search c t ++ (if c d then [d] else []))%list.
Proof. unfold TinyDB.search, TinyDB.insert. by rewrite List.filter_app. Qed.

(** An update that leaves the queried field alone commutes with the
    query. *)
Lemma search_update (c c' : dict -> bool) (fields : dict) (t : TinyDB.table) :
  (forall d, c (fields ∪ d) = c d) ->
  TinyDB.search c (TinyDB.update fields c' t)
  = List.map (fun d => if c' d then fields ∪ d else d) (TinyDB.search c t).
Proof.
  intros Hc. apply filter_map_commute. intros d. by destruct (c' d).
Qed.

Lemma search_update_same (p : string) (fields : dict) (t : TinyDB.table) :
  fields !! "path" = None ->
  TinyDB.search (has_path p) (TinyDB.update fields (has_path p) t)
  = List.map (fun d => fields ∪ d) (TinyDB.search (has_path p) t).
Proof.
  intros Hf. rewrite search_update by (intros; by apply where_eq_union).
  apply List.map_ext_in. intros d Hd. apply search_In in Hd as [_ ->]. done.
Qed.

Lemma search_update_other (p q : string) (fields : dict) (t : TinyDB.table) :
  p <> q -> fields !! "path" = None ->
  TinyDB.search (has_path p) (TinyDB.update fields (has_path q) t)
  = TinyDB.search (has_path p) t.
Proof.
  intros Hpq Hf. rewrite search_update by (intros; by apply where_eq_union).
  apply map_fixes. intros d Hd. apply search_In in Hd as [_ Hd].
  destruct (has_path q d) eqn:Eq; [|done].
  by destruct Hpq; eapply has_path_inj.
Qed.

Lemma update_length (fields : dict) (c : dict -> bool) (t : TinyDB.table) :
  length (TinyDB.update fields c t) = length t.
Proof. apply List.length_map. Qed.

Lemma update_lookup (fields : dict) (c : dict -> bool) (t : TinyDB.table)
    (i : nat) :
  TinyDB.update fields c t !! i
  = (fun d => if c d then fields ∪ d else d) <$> t !! i.
Proof. apply list_lookup_fmap. Qed.

(** An update on a path nobody has changes nothing. *)
Lemma update_no_match (fields : dict) (c : dict -> bool) (t : TinyDB.table) :
  TinyDB.search c t = [] -> TinyDB.update fields c t = t.
Proof.
  intros Hs. apply map_fixes. intros d Hd.
  destruct (c d) eqn:Ec; [|done].
  assert (In d (TinyDB.search c t)) as Hin by (by apply search_In).
  rewrite Hs in Hin. destruct Hin.
Qed.

End Tables.

(** ** Reconciliation, on the table *)

Section Reconcile.

Variable INITIAL_ELO_SCORE : pyval.

Import EloPic.

Abbreviation new_record := (EloPic.new_record INITIAL_ELO_SCORE).
Abbreviation validate_image_db := (Props.validate_image_db INITIAL_ELO_SCORE).
Abbreviation validate_db := (Props.validate_db INITIAL_ELO_SCORE).

Lemma has_path_new_record (p q : string) :
  has_path p (new_record q) = bool_decide (VStr q = VStr p).
Proof. reflexivity. Qed.

(** [_validate_image q] leaves the records of every other path alone. *)
Lemma validate_image_frame (p q : string) (t : TinyDB.table) :
  p <> q ->
  TinyDB.search (has_path p) (validate_image_db q t)
  = TinyDB.search (has_path p) t.
Proof.
  intros Hpq. unfold Props.validate_image_db.
  destruct (TinyDB.search (has_path q) t) as [|d [|d' l]]; [| |done].
  - rewrite search_insert, has_path_new_record.
    rewrite bool_decide_eq_false_2 by congruence. apply app_nil_r.
  - destruct (dict_contains "seen_count" d), (dict_contains "ignore" d);
      by rewrite ?search_update_other.
Qed.

(** What [_validate_image p] makes of the records of [p]. *)
Lemma validate_image_same (p : string) (t : TinyDB.table) :
  TinyDB.search (has_path p) (validate_image_db p t)
  = match TinyDB.search (has_path p) t with
    | [] => [new_record p]
    | [d] => [migrate d]
    | l => l
    end.
Proof.
  unfold Props.validate_image_db.
  destruct (TinyDB.search (has_path p) t) as [|d [|d' l]] eqn:Es.
  - rewrite search_insert, Es, has_path_new_record.
    by rewrite bool_decide_eq_true_2.
  - unfold migrate.
    destruct (dict_contains "seen_count" d), (dict_contains "ignore" d);
      by rewrite ?search_update_same, ?Es.
  - done.
Qed.

Lemma migrate_contains (d : dict) :
  dict_contains "seen_count" (migrate d) = true /\
  dict_contains "ignore" (migrate d) = true.
Proof.
  unfold migrate, dict_contains.
  destruct (d !! "seen_count") eqn:Es, (d !! "ignore") eqn:Ei;
    rewrite ?Es, ?Ei; split; try done;
    rewrite ?lookup_set_same, ?lookup_set_other, ?lookup_set_same, ?Es, ?Ei
      by done; done.
Qed.

Lemma validate_image_unique (q : string) (t : TinyDB.table) :
  unique_paths t -> unique_paths (validate_image_db q t).
Proof.
  intros Hu p. destruct (decide (p = q)) as [->|Hpq].
  - rewrite validate_image_same. specialize (Hu q).
    by destruct (TinyDB.search (has_path q) t) as [|d [|d' l]].
  - by rewrite validate_image_frame.
Qed.

Lemma validate_db_unique (dir : string) (listing : list string)
    (t : TinyDB.table) :
  unique_paths t -> unique_paths (validate_db dir listing t).
Proof.
  revert t. induction listing as [|img listing IH]; intros t Hu; [done|].
  simpl. apply IH. destruct (is_image img); [|done].
  by apply validate_image_unique.
Qed.

(** [_validate_image] inserts exactly when the path has no record. *)
Lemma validate_image_length (p : string) (t : TinyDB.table) :
  length (validate_image_db p t)
  = match TinyDB.search (has_path p) t with
    | [] => S (length t)
    | _ => length t
    end.
Proof.
  unfold Props.validate_image_db.
  destruct (TinyDB.search (has_path p) t) as [|d [|d' l]]; [| |done].
  - unfold TinyDB.insert. rewrite length_app. simpl. lia.
  - destruct (dict_contains "seen_count" d), (dict_contains "ignore" d);
      by rewrite ?update_length.
Qed.

End Reconcile.

(** ** Updates, on the table *)

Section Updates.

Import EloPic.

Lemma has_path_true (p : string) (d : dict) :
  has_path p d = true <-> d !! "path" = Some (VStr p).
Proof.
  unfold has_path, TinyDB.where_eq, py_eq.
  destruct (d !! "path") as [v|]; [|split; done].
  rewrite bool_decide_eq_true. split; congruence.
Qed.

Lemma update_with_Forall2 (f : dict -> outcome dict) (c : dict -> bool)
    (t t' : TinyDB.table) :
  TinyDB.update_with f c t = Returns t' ->
  Forall2 (fun d d' => if c d then f d = Returns d' else d' = d) t t'.
Proof.
  revert t'. induction t as [|d t IH]; simpl; intros t' H.
  - inversion H. constructor.
  - destruct (c d) eqn:Ec.
    + destruct (f d) as [d'|] eqn:Ef; [|done].
      destruct (TinyDB.update_with f c t) as [t''|]; [|done].
      inversion H. constructor; [by rewrite Ec | by apply IH].
    + destruct (TinyDB.update_with f c t) as [t''|]; [|done].
      inversion H. constructor; [by rewrite Ec | by apply IH].
Qed.

Lemma update_with_Returns (f : dict -> outcome dict) (c : dict -> bool)
    (t : TinyDB.table) :
  Forall (fun d => c d = true -> exists d', f d = Returns d') t ->
  exists t', TinyDB.update_with f c t = Returns t'.
Proof.
  induction 1 as [|d t Hd _ [t' IH]]; simpl; [eauto|].
  rewrite IH. destruct (c d); [|eauto].
  destruct Hd as [d' ->]; eauto.
Qed.

Lemma update_with_no_match (f : dict -> outcome dict) (c : dict -> bool)
    (t : TinyDB.table) :
  TinyDB.search c t = [] -> TinyDB.update_with f c t = Returns t.
Proof.
  induction t as [|d t IH]; simpl; [done|].
  destruct (c d); [done|]. intros Hs. by rewrite IH.
Qed.

Lemma increment_Returns (d d' : dict) :
  TinyDB.increment "seen_count" d = Returns d' ->
  exists n, d !! "seen_count" = Some (VInt n) /\
            d' = <["seen_count" := VInt (n + 1)]> d.
Proof.
  unfold TinyDB.increment.
  destruct (d !! "seen_count") as [[n|s]|]; [|done|done].
  intros H. inversion H. eauto.
Qed.

Lemma search_length_Forall2 (c : dict -> bool) (t t' : TinyDB.table) :
  Forall2 (fun d d' => c d' = c d) t t' ->
  length (TinyDB.search c t') = length (TinyDB.search c t).
Proof.
  induction 1 as [|d d' t t' Hd _ IH]; [done|].
  simpl. rewrite Hd. destruct (c d); simpl; by rewrite IH.
Qed.

(** Incrementing the counters keeps every record's path. *)
Lemma increment_keeps_paths (c : dict -> bool) (t t' : TinyDB.table)
    (p : string) :
  TinyDB.update_with (TinyDB.increment "seen_count") c t = Returns t' ->
  length (TinyDB.search (has_path p) t') = length (TinyDB.search (has_path p) t).
Proof.
  intros H. apply search_length_Forall2.
  eapply Forall2_impl; [by apply update_with_Forall2|]. simpl.
  intros d d' Hd. destruct (c d); [|by subst].
  apply increment_Returns in Hd as (n & _ & ->).
  unfold has_path, TinyDB.where_eq. by rewrite lookup_insert_ne.
Qed.

Lemma update_keeps_paths (fields : dict) (c : dict -> bool) (t : TinyDB.table)
    (p : string) :
  fields !! "path" = None ->
  length (TinyDB.search (has_path p) (TinyDB.update fields c t))
  = length (TinyDB.search (has_path p) t).
Proof.
  intros Hf. rewrite search_update by (intros; by apply where_eq_union).
  apply List.length_map.
Qed.

Lemma update_rating_unique (p : string) (r : pyval) (t : TinyDB.table) :
  unique_paths t -> unique_paths (update_rating_db p r t).
Proof.
  intros Hu q. unfold update_rating_db.
  destruct (TinyDB.update_with _ _ _) as [t2|] eqn:E.
  - rewrite (increment_keeps_paths _ _ _ _ E). by rewrite update_keeps_paths.
  - by rewrite update_keeps_paths.
Qed.

Lemma ignore_pictures_unique (ps : list string) (t : TinyDB.table) :
  unique_paths t -> unique_paths (ignore_pictures_db ps t).
Proof.
  revert t. induction ps as [|p ps IH]; intros t Hu; [done|].
  simpl. apply IH. intros q. by rewrite update_keeps_paths.
Qed.

Lemma update_rating_length (p : string) (r : pyval) (t : TinyDB.table) :
  length (update_rating_db p r t) = length t.
Proof.
  unfold update_rating_db.
  destruct (TinyDB.update_with _ _ _) as [t2|] eqn:E.
  - apply update_with_Forall2, Forall2_length in E.
    by rewrite <- E, update_length.
  - apply update_length.
Qed.

Lemma ignore_pictures_length (ps : list string) (t : TinyDB.table) :
  length (ignore_pictures_db ps t) = length t.
Proof.
  revert t. induction ps as [|p ps IH]; intros t; [done|].
  simpl. by rewrite IH, update_length.
Qed.

Lemma update_rating_run (p : string) (r : pyval) (self : EloPicDB) :
  fst (update_rating p r self)
  = {| _db := update_rating_db p r (_db self); _dir := _dir self |}.
Proof.
  unfold update_rating, update_rating_db, bind, db_write, db_try_write. simpl.
  fold (has_path p). by destruct (TinyDB.update_with _ _ _).
Qed.

Lemma ignore_pictures_run (ps : list string) (self : EloPicDB) :
  ignore_pictures ps self
  = ({| _db := ignore_pictures_db ps (_db self); _dir := _dir self |},
     Returns tt).
Proof.
  unfold ignore_pictures, bind at 1.
  assert (exists us, for_in ps (fun image_path =>
            db_write (TinyDB.update {[ "ignore" := VInt 1 ]}
                        (TinyDB.where_eq "path" (VStr image_path)))) self
          = ({| _db := ignore_pictures_db ps (_db self); _dir := _dir self |},
             Returns us)) as [us ->]; [|done].
  revert self. induction ps as [|p ps IH]; intros self.
  - destruct self. simpl. unfold ret. eauto.
  - simpl. unfold bind at 1, db_write at 1. unfold bind at 1.
    edestruct IH as [us ->]. simpl. unfold ret. eauto.
Qed.

End Updates.

(** ** Uniqueness of records *)

Section Uniqueness.

Variable INITIAL_ELO_SCORE : pyval.

Import EloPic.

Abbreviation after := (Props.after INITIAL_ELO_SCORE).
Abbreviation after_all := (Props.after_all INITIAL_ELO_SCORE).

(** The table after each call. *)
Lemma after_db (c : call) (self : EloPicDB) :
  _db (after c self)
  = match c with
    | CallLoadFromDisk abspath listing =>
        validate_db INITIAL_ELO_SCORE abspath listing (_db self)
    | CallValidate listing =>
        validate_db INITIAL_ELO_SCORE (_dir self) listing (_db self)
    | CallUpdateRating p r => update_rating_db p r (_db self)
    | CallIgnorePictures ps => ignore_pictures_db ps (_db self)
    end.
Proof.
  destruct c as [abspath listing|listing|p r|ps]; simpl.
  - by rewrite (load_from_disk_run _ _ (_db self)).
  - by rewrite validate_run.
  - by rewrite update_rating_run.
  - by rewrite ignore_pictures_run.
Qed.

Lemma after_unique (c : call) (self : EloPicDB) :
  unique_paths (_db self) -> unique_paths (_db (after c self)).
Proof.
  intros Hu. rewrite after_db. destruct c.
  - by apply validate_db_unique.
  - by apply validate_db_unique.
  - by apply update_rating_unique.
  - by apply ignore_pictures_unique.
Qed.

Lemma after_all_unique (cs : list call) (self : EloPicDB) :
  unique_paths (_db self) -> unique_paths (_db (after_all cs self)).
Proof.
  revert self. induction cs as [|c cs IH]; intros self Hu; [done|].
  simpl. apply IH. by apply after_unique.
Qed.

Lemma unique_paths_nil : unique_paths [].
Proof. intros p. simpl. lia. Qed.

End Uniqueness.

(** C1 (uniqueness of records), as the code has it.  A directory whose
    [elopic.data] is missing, or holds at most one record per path, loads
    into a store with at most one record per path, and the store keeps that
    through every run of calls ([load_from_disk] again, [validate],
    [update_rating], [ignore_pictures]).  From any store with at most one
    record per path, every call leaves at most one record per path.
    [_validate_image] adds a record exactly when the path has none, and
    [update_rating] and [ignore_pictures] never add one. *)
Theorem uniqueness_of_records (INITIAL_ELO_SCORE : pyval)
    (D : EloPic.directory) (t0 : TinyDB.table) (cs : list call) (c : call)
    (self : EloPic.EloPicDB) (p : string) (r : pyval) (ps : list string) :
  TinyDB.open (EloPic.dir_data D) = Returns t0 ->
  unique_paths t0 ->
  unique_paths (EloPic._db self) ->
  (exists s, EloPic.load_from_disk INITIAL_ELO_SCORE D = Returns s /\
             unique_paths (EloPic._db s) /\
             unique_paths (EloPic._db (after_all INITIAL_ELO_SCORE cs s))) /\
  unique_paths (EloPic._db (after INITIAL_ELO_SCORE c self)) /\
  length (EloPic._db (fst (EloPic._validate_image INITIAL_ELO_SCORE p self)))
    = (if decide (TinyDB.search (has_path p) (EloPic._db self) = [])
       then S (length (EloPic._db self)) else length (EloPic._db self)) /\
  length (EloPic._db (fst (EloPic.update_rating p r self)))
    = length (EloPic._db self) /\
  length (EloPic._db (fst (EloPic.ignore_pictures ps self)))
    = length (EloPic._db self).
Proof.
  intros HD Hu0 Hu. split; [|split; [|split; [|split]]].
  - eexists. split; [|split].
    + by apply load_from_disk_run.
    + simpl. by apply validate_db_unique.
    + apply after_all_unique. simpl. by apply validate_db_unique.
  - by apply after_unique.
  - rewrite validate_image_run. simpl. rewrite validate_image_length.
    by destruct (TinyDB.search (has_path p) (EloPic._db self)).
  - rewrite update_rating_run. simpl. apply update_rating_length.
  - rewrite ignore_pictures_run. simpl. apply ignore_pictures_length.
Qed.

(** ** New records, settled paths and migration *)

Section Settling.

Variable INITIAL_ELO_SCORE : pyval.

Import EloPic.

Abbreviation new_record := (EloPic.new_record INITIAL_ELO_SCORE).
Abbreviation validate_image_db := (Props.validate_image_db INITIAL_ELO_SCORE).
Abbreviation validate_db := (Props.validate_db INITIAL_ELO_SCORE).

Lemma migrate_id (d : dict) :
  dict_contains "seen_count" d = true -> dict_contains "ignore" d = true ->
  migrate d = d.
Proof. intros Hs Hi. unfold migrate. by rewrite Hs, Hi. Qed.

Lemma migrate_idemp (d : dict) : migrate (migrate d) = migrate d.
Proof. destruct (migrate_contains d). by apply migrate_id. Qed.

Lemma settled_fix (p : string) (t : TinyDB.table) :
  settled p t -> validate_image_db p t = t.
Proof.
  unfold settled, Props.validate_image_db.
  destruct (TinyDB.search (has_path p) t) as [|d [|d' l]]; [done| |done].
  by intros [-> ->].
Qed.

Lemma settled_after (p : string) (t : TinyDB.table) :
  settled p (validate_image_db p t).
Proof.
  unfold settled. rewrite validate_image_same.
  destruct (TinyDB.search (has_path p) t) as [|d [|d' l]]; [done| |done].
  apply migrate_contains.
Qed.

Lemma settled_frame (p q : string) (t : TinyDB.table) :
  settled p t -> settled p (validate_image_db q t).
Proof.
  intros Hs. destruct (decide (p = q)) as [<-|Hpq].
  - by rewrite settled_fix.
  - unfold settled. by rewrite validate_image_frame.
Qed.

Lemma settled_validate_db (p dir : string) (listing : list string)
    (t : TinyDB.table) :
  settled p t -> settled p (validate_db dir listing t).
Proof.
  revert t. induction listing as [|img listing IH]; intros t Hs; [done|].
  simpl. apply IH. destruct (is_image img); [|done]. by apply settled_frame.
Qed.

(** After [validate], every image of the listing is settled. *)
Lemma validate_db_settles (dir img : string) (listing : list string)
    (t : TinyDB.table) :
  In img listing -> is_image img = true ->
  settled (path_join dir img) (validate_db dir listing t).
Proof.
  revert t. induction listing as [|img' listing IH]; intros t Hin Himg; [done|].
  simpl. destruct Hin as [->|Hin].
  - rewrite Himg. apply settled_validate_db, settled_after.
  - by apply IH.
Qed.

Lemma validate_db_fix (dir : string) (listing : list string)
    (t : TinyDB.table) :
  (forall img, In img listing -> is_image img = true ->
               settled (path_join dir img) t) ->
  validate_db dir listing t = t.
Proof.
  induction listing as [|img listing IH]; intros Hs; [done|].
  simpl. destruct (is_image img) eqn:Himg.
  - rewrite settled_fix by (apply Hs; [by left | done]).
    apply IH. intros img' Hin. apply Hs. by right.
  - apply IH. intros img' Hin. apply Hs. by right.
Qed.

(** Validating again changes nothing. *)
Lemma validate_db_idemp (dir : string) (listing : list string)
    (t : TinyDB.table) :
  validate_db dir listing (validate_db dir listing t)
  = validate_db dir listing t.
Proof.
  apply validate_db_fix. intros img Hin Himg. by apply validate_db_settles.
Qed.

(** A path without a record gets the new record, and keeps exactly it. *)
Lemma validate_image_new_or_none (p q : string) (t : TinyDB.table) :
  TinyDB.search (has_path p) t = [] \/
  TinyDB.search (has_path p) t = [new_record p] ->
  (TinyDB.search (has_path p) (validate_image_db q t) = [] /\ p <> q) \/
  TinyDB.search (has_path p) (validate_image_db q t) = [new_record p].
Proof.
  intros H. destruct (decide (p = q)) as [<-|Hpq].
  - right. rewrite validate_image_same. destruct H as [->| ->]; [done|].
    by rewrite migrate_id.
  - rewrite validate_image_frame by done. destruct H; [left|right]; done.
Qed.

Lemma validate_db_new_stays (p dir : string) (listing : list string)
    (t : TinyDB.table) :
  TinyDB.search (has_path p) t = [new_record p] ->
  TinyDB.search (has_path p) (validate_db dir listing t) = [new_record p].
Proof.
  revert t. induction listing as [|img listing IH]; intros t Hs; [done|].
  simpl. apply IH. destruct (is_image img); [|done].
  destruct (validate_image_new_or_none p (path_join dir img) t) as [[H _]|H];
    [by right| |done].
  rewrite validate_image_frame in H; [congruence|].
  intros ->. rewrite validate_image_same, Hs in H. done.
Qed.

Lemma validate_db_new (dir img : string) (listing : list string)
    (t : TinyDB.table) :
  In img listing -> is_image img = true ->
  TinyDB.search (has_path (path_join dir img)) t = [] ->
  TinyDB.search (has_path (path_join dir img)) (validate_db dir listing t)
  = [new_record (path_join dir img)].
Proof.
  set (p := path_join dir img).
  revert t. induction listing as [|img' listing IH]; intros t Hin Himg Hs; [done|].
  simpl. destruct Hin as [->|Hin].
  - rewrite Himg. apply validate_db_new_stays. fold p.
    by rewrite validate_image_same, Hs.
  - destruct (is_image img'); [|by apply IH].
    destruct (validate_image_new_or_none p (path_join dir img') t) as [[H _]|H];
      [by left | by apply IH | by apply validate_db_new_stays].
Qed.

End Settling.

(** C8 (new-record initialisation).  When the store opens, an image file of
    the listing whose absolute path has no record gets one: after
    [load_from_disk] the store holds, for that path, exactly the record with
    [rating = INITIAL_ELO_SCORE], [seen_count = 0] and [ignore = 0]. *)
Theorem new_record_initialised (INITIAL_ELO_SCORE : pyval)
    (D : EloPic.directory) (t : TinyDB.table) (img : string) :
  TinyDB.open (EloPic.dir_data D) = Returns t ->
  In img (EloPic.dir_listing D) ->
  EloPic.is_image img = true ->
  TinyDB.search (has_path (path_join (EloPic.dir_abspath D) img)) t = [] ->
  exists (s : EloPic.EloPicDB) (d : dict),
    EloPic.load_from_disk INITIAL_ELO_SCORE D = Returns s /\
    TinyDB.search (has_path (path_join (EloPic.dir_abspath D) img))
                  (EloPic._db s) = [d] /\
    d !! "path" = Some (VStr (path_join (EloPic.dir_abspath D) img)) /\
    d !! "rating" = Some INITIAL_ELO_SCORE /\
    d !! "seen_count" = Some (VInt 0) /\
    d !! "ignore" = Some (VInt 0).
Proof.
  intros Ht Hin Himg Hs.
  exists {| EloPic._db := validate_db INITIAL_ELO_SCORE (EloPic.dir_abspath D)
                            (EloPic.dir_listing D) t;
            EloPic._dir := EloPic.dir_abspath D |},
         (EloPic.new_record INITIAL_ELO_SCORE
            (path_join (EloPic.dir_abspath D) img)).
  split; [by apply load_from_disk_run|].
  split; [by apply validate_db_new|]. done.
Qed.

(** C6 (idempotent reconciliation).  When the store opens, [load_from_disk]
    returns, and loading again from the directory as the first load left it
    (same listing, the table written to [elopic.data]) returns the same
    object: the same records with the same fields, in the same order. *)
Theorem idempotent_reconciliation (INITIAL_ELO_SCORE : pyval)
    (D : EloPic.directory) (t : TinyDB.table) :
  TinyDB.open (EloPic.dir_data D) = Returns t ->
  exists s : EloPic.EloPicDB,
    EloPic.load_from_disk INITIAL_ELO_SCORE D = Returns s /\
    EloPic.load_from_disk INITIAL_ELO_SCORE (written_back D s) = Returns s.
Proof.
  intros Ht. eexists. split; [by apply load_from_disk_run|].
  erewrite load_from_disk_run by reflexivity. simpl.
  by rewrite validate_db_idemp.
Qed.

(** C10 (the index error after an insert).  For a path without a record,
    [_validate_image] inserts the new record and then raises [IndexError]
    from [result[0]]; the inserted record stays in the store.  When the path
    is that of an image of the listing, the handler of the round in
    [validate] catches the error and rewrites its message, and nothing is
    raised again: [validate] returns normally, with the inserted record in
    the store. *)
Theorem validate_image_new_path_raises (INITIAL_ELO_SCORE : pyval)
    (self : EloPic.EloPicDB) (p : string) :
  TinyDB.search (has_path p) (EloPic._db self) = [] ->
  let inserted :=
    {| EloPic._db := (EloPic._db self ++ [EloPic.new_record INITIAL_ELO_SCORE p])%list;
       EloPic._dir := EloPic._dir self |} in
  EloPic._validate_image INITIAL_ELO_SCORE p self
    = (inserted, Raises (mk_exc IndexError "list index out of range")) /\
  TinyDB.search (has_path p) (EloPic._db inserted)
    = [EloPic.new_record INITIAL_ELO_SCORE p] /\
  forall (img : string) (listing : list string),
    p = path_join (EloPic._dir self) img ->
    EloPic.is_image img = true ->
    In img listing ->
    EloPic.validate_round INITIAL_ELO_SCORE img self
      = (inserted,
         Returns (Some (mk_exc IndexError
            ("Error while validating " +:+ img +:+ ": list index out of range")))) /\
    exists s : EloPic.EloPicDB,
      EloPic.validate INITIAL_ELO_SCORE listing self = (s, Returns tt) /\
      TinyDB.search (has_path p) (EloPic._db s)
        = [EloPic.new_record INITIAL_ELO_SCORE p].
Proof.
  intros Hs inserted.
  assert (Hrun : EloPic._validate_image INITIAL_ELO_SCORE p self
                 = (inserted, Raises (mk_exc IndexError "list index out of range"))).
  { rewrite validate_image_run.
    unfold Props.validate_image_db, validate_image_outcome. by rewrite Hs. }
  split; [done|]. split.
  - simpl. fold (TinyDB.insert (EloPic.new_record INITIAL_ELO_SCORE p) (EloPic._db self)).
    rewrite search_insert, Hs, has_path_new_record.
    by rewrite bool_decide_eq_true_2.
  - intros img listing Hp Himg Hin. split.
    + unfold EloPic.validate_round. rewrite Himg.
      unfold EloPic.try_except, EloPic.bind, EloPic.self_dir. rewrite <- Hp.
      by rewrite Hrun.
    + eexists. split; [apply validate_run|]. simpl. subst p.
      by apply validate_db_new.
Qed.

(** ** Following one record through reconciliation *)

Section Tracking.

Variable INITIAL_ELO_SCORE : pyval.

Import EloPic.

Abbreviation validate_image_db := (Props.validate_image_db INITIAL_ELO_SCORE).
Abbreviation validate_db := (Props.validate_db INITIAL_ELO_SCORE).

Lemma migrate_lookup_other (k : string) (d : dict) :
  k <> "seen_count" -> k <> "ignore" -> migrate d !! k = d !! k.
Proof.
  intros Hs Hi. unfold migrate.
  destruct (dict_contains "seen_count" d), (dict_contains "ignore" d);
    by rewrite ?lookup_set_other by done.
Qed.

Lemma migrate_seen_count (d : dict) :
  migrate d !! "seen_count" = Some (default (VInt 0) (d !! "seen_count")).
Proof.
  unfold migrate, dict_contains.
  destruct (d !! "seen_count") eqn:Es, (d !! "ignore") eqn:Ei;
    rewrite ?lookup_set_same, ?lookup_set_other, ?lookup_set_same, ?Es by done;
    done.
Qed.

Lemma migrate_ignore (d : dict) :
  migrate d !! "ignore" = Some (default (VInt 0) (d !! "ignore")).
Proof.
  unfold migrate, dict_contains.
  destruct (d !! "seen_count") eqn:Es, (d !! "ignore") eqn:Ei;
    rewrite ?lookup_set_same, ?lookup_set_other, ?Ei by done; done.
Qed.

(** Migration keeps every field a record has. *)
Lemma migrate_lookup_present (k : string) (v : pyval) (d : dict) :
  d !! k = Some v -> migrate d !! k = Some v.
Proof.
  intros Hk. destruct (decide (k = "seen_count")) as [->|Hs].
  - by rewrite migrate_seen_count, Hk.
  - destruct (decide (k = "ignore")) as [->|Hi].
    + by rewrite migrate_ignore, Hk.
    + by rewrite migrate_lookup_other.
Qed.

Lemma lookup_In (t : TinyDB.table) (i : nat) (d : dict) :
  t !! i = Some d -> In d t.
Proof. intros H. apply list_elem_of_In. by eapply list_elem_of_lookup_2. Qed.

Lemma unique_search (p : string) (t : TinyDB.table) (i : nat) (d : dict) :
  unique_paths t -> t !! i = Some d -> has_path p d = true ->
  TinyDB.search (has_path p) t = [d].
Proof.
  intros Hu Hi Hp. specialize (Hu p).
  assert (In d (TinyDB.search (has_path p) t)) as Hin
    by (apply search_In; split; [by eapply lookup_In | done]).
  destruct (TinyDB.search (has_path p) t) as [|d0 [|d1 l]]; simpl in *.
  - done.
  - by destruct Hin as [->|[]].
  - lia.
Qed.

Lemma search_singleton_head (c : dict -> bool) (t : TinyDB.table) (d : dict)
    (l : list dict) :
  TinyDB.search c t = d :: l -> c d = true.
Proof.
  intros Hs. assert (In d (TinyDB.search c t)) as Hin by (rewrite Hs; by left).
  by apply search_In in Hin as [_ ?].
Qed.

Lemma search_singleton (c : dict -> bool) (t : TinyDB.table) (d : dict) :
  TinyDB.search c t = [d] -> c d = true.
Proof.
  intros Hs. assert (In d (TinyDB.search c t)) as Hin by (rewrite Hs; by left).
  by apply search_In in Hin as [_ ?].
Qed.

Lemma validate_image_lookup_other (q : string) (t : TinyDB.table) (i : nat)
    (d : dict) :
  t !! i = Some d -> has_path q d = false ->
  validate_image_db q t !! i = Some d.
Proof.
  intros Hi Hq. unfold Props.validate_image_db.
  destruct (TinyDB.search (has_path q) t) as [|d0 [|d1 l]]; [| |done].
  - unfold TinyDB.insert. by apply lookup_app_l_Some.
  - destruct (dict_contains "seen_count" d0), (dict_contains "ignore" d0);
      rewrite ?update_lookup, ?Hi; simpl; rewrite ?Hq; simpl; by rewrite ?Hq.
Qed.

Lemma validate_image_lookup_same (p : string) (t : TinyDB.table) (i : nat)
    (d : dict) :
  t !! i = Some d -> TinyDB.search (has_path p) t = [d] ->
  validate_image_db p t !! i = Some (migrate d).
Proof.
  intros Hi Hs. pose proof (search_singleton _ _ _ Hs) as Hp.
  unfold Props.validate_image_db, migrate. rewrite Hs.
  destruct (dict_contains "seen_count" d), (dict_contains "ignore" d);
    rewrite ?update_lookup, ?Hi; simpl; rewrite ?Hp; simpl; [done..|].
  unfold has_path. rewrite where_eq_union by done. fold (has_path p).
  by rewrite Hp.
Qed.

(** The one record of a path stays where it is through [validate]; it is
    migrated when the path is that of an image of the listing. *)
Lemma validate_db_tracks (dir p : string) (listing : list string)
    (t : TinyDB.table) (i : nat) (d : dict) :
  t !! i = Some d -> TinyDB.search (has_path p) t = [d] ->
  exists d',
    validate_db dir listing t !! i = Some d' /\
    TinyDB.search (has_path p) (validate_db dir listing t) = [d'] /\
    (d' = d \/ d' = migrate d) /\
    ((exists img, In img listing /\ is_image img = true /\ path_join dir img = p)
       -> d' = migrate d).
Proof.
  revert t d. induction listing as [|img listing IH]; intros t d Hi Hs.
  - exists d. simpl. split_and!; [done|done|by left|].
    by intros (img & [] & _).
  - simpl. destruct (is_image img) eqn:Himg.
    + destruct (decide (path_join dir img = p)) as [Hq|Hq].
      * rewrite Hq.
        destruct (IH (validate_image_db p t) (migrate d)) as (d' & H1 & H2 & H3 & _).
        { by apply validate_image_lookup_same. }
        { by rewrite validate_image_same, Hs. }
        rewrite migrate_idemp in H3.
        assert (d' = migrate d) as -> by (by destruct H3).
        exists (migrate d). split_and!; [done|done|by right|done].
      * destruct (IH (validate_image_db (path_join dir img) t) d)
          as (d' & H1 & H2 & H3 & H4).
        { apply validate_image_lookup_other; [done|].
          pose proof (search_singleton _ _ _ Hs) as Hp.
          destruct (has_path (path_join dir img) d) eqn:E; [|done].
          destruct Hq. by eapply has_path_inj. }
        { by rewrite validate_image_frame. }
        exists d'. split_and!; [done|done|done|].
        intros (img' & [->|Hin] & Him & Hpath); [done|].
        apply H4. by exists img'.
    + destruct (IH t d Hi Hs) as (d' & H1 & H2 & H3 & H4).
      exists d'. split_and!; [done|done|done|].
      intros (img' & [->|Hin] & Him & Hpath); [congruence|].
      apply H4. by exists img'.
Qed.

Lemma In_image_paths (dir p : string) (listing : list string) :
  In p (image_paths dir listing) <->
  exists img, In img listing /\ is_image img = true /\ path_join dir img = p.
Proof.
  unfold image_paths. rewrite in_map_iff. split.
  - intros (img & Hp & Hin). apply List.filter_In in Hin as [Hin Himg]. eauto.
  - intros (img & Hin & Himg & Hp). exists img. split; [done|].
    by apply List.filter_In.
Qed.

(** A record whose path is that of no image of the listing, or has more
    than one record, is left exactly as it is by [validate]. *)
Lemma validate_db_untouched (dir p : string) (listing : list string)
    (t : TinyDB.table) (i : nat) (d : dict) :
  t !! i = Some d -> has_path p d = true ->
  ~ In p (image_paths dir listing) \/
  (2 <= length (TinyDB.search (has_path p) t))%nat ->
  validate_db dir listing t !! i = Some d.
Proof.
  revert t. induction listing as [|img listing IH]; intros t Hi Hp Hor; [done|].
  simpl. destruct (is_image img) eqn:Himg.
  - destruct (decide (path_join dir img = p)) as [Hq|Hq].
    + assert (2 <= length (TinyDB.search (has_path p) t))%nat as Hlen.
      { destruct Hor as [Hnot|?]; [|done]. destruct Hnot.
        apply In_image_paths. exists img. split; [by left | done]. }
      assert (validate_image_db (path_join dir img) t = t) as ->.
      { rewrite Hq. unfold Props.validate_image_db.
        destruct (TinyDB.search (has_path p) t) as [|d0 [|d1 l]];
          [simpl in Hlen; lia | simpl in Hlen; lia | done]. }
      apply IH; [done | done | by right].
    + apply IH; [|done|].
      * apply validate_image_lookup_other; [done|].
        destruct (has_path (path_join dir img) d) eqn:E; [|done].
        destruct Hq. by eapply has_path_inj.
      * rewrite validate_image_frame by done.
        destruct Hor as [Hnot|?]; [left|by right].
        intros Hin. apply Hnot. apply In_image_paths.
        apply In_image_paths in Hin as (img' & ? & ? & ?).
        exists img'. split; [by right | done].
  - apply IH; [done|done|].
    destruct Hor as [Hnot|?]; [left|by right].
    intros Hin. apply Hnot. apply In_image_paths.
    apply In_image_paths in Hin as (img' & ? & ? & ?).
    exists img'. split; [by right | done].
Qed.

End Tracking.

(** C5 (migration safety), as the code has it.  When the store opens, take
    a record with path [p].  If [p] is the path of an image file of the
    listing and the record is the only one of [p], [load_from_disk] migrates
    it in place: it stays at its position and stays the only record of its
    path, [seen_count] and [ignore] are [0] where they were missing and
    unchanged where they were present, and [path], [rating] and every other
    field are unchanged.  If [p] is the path of no image file of the
    listing, or [p] has more than one record, the record is left exactly as
    it was. *)
Theorem migration_of_listed_record (INITIAL_ELO_SCORE : pyval)
    (D : EloPic.directory) (t : TinyDB.table) (i : nat) (d : dict)
    (p : string) :
  TinyDB.open (EloPic.dir_data D) = Returns t ->
  t !! i = Some d ->
  d !! "path" = Some (VStr p) ->
  exists s : EloPic.EloPicDB,
    EloPic.load_from_disk INITIAL_ELO_SCORE D = Returns s /\
    (In p (image_paths (EloPic.dir_abspath D) (EloPic.dir_listing D)) ->
     TinyDB.search (has_path p) t = [d] ->
     exists d' : dict,
       EloPic._db s !! i = Some d' /\
       TinyDB.search (has_path p) (EloPic._db s) = [d'] /\
       d' !! "seen_count" = Some (default (VInt 0) (d !! "seen_count")) /\
       d' !! "ignore" = Some (default (VInt 0) (d !! "ignore")) /\
       d' !! "path" = d !! "path" /\
       d' !! "rating" = d !! "rating" /\
       (forall k, k <> "seen_count" -> k <> "ignore" -> d' !! k = d !! k)) /\
    (~ In p (image_paths (EloPic.dir_abspath D) (EloPic.dir_listing D)) ->
     EloPic._db s !! i = Some d) /\
    ((2 <= length (TinyDB.search (has_path p) t))%nat ->
     EloPic._db s !! i = Some d).
Proof.
  intros Ht Hi Hp. apply has_path_true in Hp.
  eexists. split; [by apply load_from_disk_run|]. simpl.
  split; [|split].
  - intros Hin Hs. apply In_image_paths in Hin as (img & Hin & Himg & Hq).
    destruct (validate_db_tracks INITIAL_ELO_SCORE (EloPic.dir_abspath D) p
                (EloPic.dir_listing D) t i d Hi Hs) as (d' & H1 & H2 & _ & H4).
    rewrite (H4 (ex_intro _ img (conj Hin (conj Himg Hq)))) in H1, H2.
    exists (migrate d). split; [done|]. split; [done|].
    split; [apply migrate_seen_count|]. split; [apply migrate_ignore|].
    split; [by apply migrate_lookup_other|].
    split; [by apply migrate_lookup_other|].
    intros k. apply migrate_lookup_other.
  - intros Hnot. apply (validate_db_untouched _ _ p); [done | done | by left].
  - intros Hlen. apply (validate_db_untouched _ _ p); [done | done | by right].
Qed.

(** ** The ignore flag, on the table *)

Section Ignoring.

Import EloPic.

Lemma ignored_by_union (ps : list string) (fields d : dict) :
  fields !! "path" = None ->
  ignored_by ps (fields ∪ d) = ignored_by ps d.
Proof.
  intros Hf. unfold ignored_by.
  induction ps as [|p ps IH]; [done|].
  simpl. rewrite IH. unfold has_path at 1 3. by rewrite where_eq_union.
Qed.

(** [ignore_pictures ps] sets the flag on the records that [ps] names and
    leaves the others as they are. *)
Lemma ignore_pictures_db_map (ps : list string) (t : TinyDB.table) :
  ignore_pictures_db ps t
  = List.map (fun d => if ignored_by ps d
                       then {[ "ignore" := VInt 1 ]} ∪ d else d) t.
Proof.
  revert t. induction ps as [|p ps IH]; intros t.
  - simpl. symmetry. by apply map_fixes.
  - simpl. rewrite IH. unfold TinyDB.update. rewrite List.map_map.
    apply List.map_ext. intros d. destruct (has_path p d) eqn:Hp; simpl; [|done].
    rewrite ignored_by_union by done.
    destruct (ignored_by ps d); [|done].
    by rewrite (assoc_L (∪)), (idemp_L (∪)).
Qed.

Lemma ignore_pictures_lookup (ps : list string) (t : TinyDB.table) (i : nat) :
  ignore_pictures_db ps t !! i
  = (fun d => if ignored_by ps d then {[ "ignore" := VInt 1 ]} ∪ d else d)
      <$> t !! i.
Proof. rewrite ignore_pictures_db_map. apply list_lookup_fmap. Qed.

Lemma ignored_by_In (ps : list string) (p : string) (d : dict) :
  In p ps -> has_path p d = true -> ignored_by ps d = true.
Proof.
  intros Hin Hp. unfold ignored_by. apply existsb_exists. eauto.
Qed.

End Ignoring.

(** ** The seen counter *)

Section SeenCount.

Variable INITIAL_ELO_SCORE : pyval.

Import EloPic.

Abbreviation after := (Props.after INITIAL_ELO_SCORE).
Abbreviation after_all := (Props.after_all INITIAL_ELO_SCORE).

Lemma updates_of_nonneg (p : string) (cs : list call) : 0 <= updates_of p cs.
Proof.
  induction cs as [|[| |q r|] cs IH]; simpl; try lia.
  destruct (String.eqb q p); lia.
Qed.

Lemma updates_of_app (p : string) (cs cs' : list call) :
  updates_of p (cs ++ cs') = updates_of p cs + updates_of p cs'.
Proof.
  induction cs as [|[| |q r|] cs IH]; simpl; try lia.
Qed.

Lemma counted_validate_db (p dir : string) (listing : list string)
    (i : nat) (n : Z) (t : TinyDB.table) :
  unique_paths t -> counted p i n t ->
  counted p i n (validate_db INITIAL_ELO_SCORE dir listing t).
Proof.
  intros Hu (d & Hi & Hp & Hn).
  assert (TinyDB.search (has_path p) t = [d]) as Hs
    by (eapply unique_search; [done|done|by apply has_path_true]).
  destruct (validate_db_tracks INITIAL_ELO_SCORE dir p listing t i d Hi Hs)
    as (d' & H1 & _ & [->| ->] & _).
  - by exists d.
  - exists (migrate d). split; [done|].
    split; by apply migrate_lookup_present.
Qed.

Lemma counted_ignore_pictures (p : string) (ps : list string) (i : nat) (n : Z)
    (t : TinyDB.table) :
  counted p i n t -> counted p i n (ignore_pictures_db ps t).
Proof.
  intros (d & Hi & Hp & Hn). unfold counted.
  rewrite ignore_pictures_lookup, Hi. simpl.
  eexists. split; [done|].
  destruct (ignored_by ps d); [|done].
  by rewrite !lookup_set_other.
Qed.

(** With one record for the path, the increment of [update_rating] goes
    through. *)
Lemma update_rating_Returns (p : string) (r : pyval) (i : nat) (n : Z)
    (t : TinyDB.table) :
  unique_paths t -> counted p i n t ->
  exists t2,
    TinyDB.update_with (TinyDB.increment "seen_count") (has_path p)
      (TinyDB.update {[ "rating" := r ]} (has_path p) t) = Returns t2.
Proof.
  intros Hu (d & Hi & Hp & Hn).
  assert (TinyDB.search (has_path p) t = [d]) as Hs
    by (eapply unique_search; [done|done|by apply has_path_true]).
  apply update_with_Returns. apply Forall_forall. intros e1 He1 Hpe1.
  apply list_elem_of_In, in_map_iff in He1 as (e & <- & He).
  assert (has_path p e = true) as Hpe.
  { destruct (has_path p e) eqn:E; [done|]. by rewrite E in Hpe1. }
  assert (e = d) as ->.
  { assert (In e (TinyDB.search (has_path p) t)) as Hin by (by apply search_In).
    rewrite Hs in Hin. by destruct Hin as [->|[]]. }
  rewrite Hpe. unfold TinyDB.increment.
  rewrite lookup_set_other by done. rewrite Hn. eauto.
Qed.

Lemma counted_update_rating_same (p : string) (r : pyval) (i : nat) (n : Z)
    (t : TinyDB.table) :
  unique_paths t -> counted p i n t ->
  counted p i (n + 1) (update_rating_db p r t).
Proof.
  intros Hu Hc. destruct (update_rating_Returns p r i n t Hu Hc) as [t2 Ht2].
  destruct Hc as (d & Hi & Hp & Hn).
  unfold update_rating_db. rewrite Ht2.
  apply update_with_Forall2 in Ht2.
  assert (TinyDB.update {[ "rating" := r ]} (has_path p) t !! i
          = Some ({[ "rating" := r ]} ∪ d)) as Hi1.
  { rewrite update_lookup, Hi. simpl.
    by rewrite (proj2 (has_path_true p d) Hp). }
  destruct (Forall2_lookup_l _ _ _ _ _ Ht2 Hi1) as (d2 & Hi2 & Hd2).
  unfold has_path in Hd2. rewrite where_eq_union in Hd2 by done.
  fold (has_path p) in Hd2. rewrite (proj2 (has_path_true p d) Hp) in Hd2.
  apply increment_Returns in Hd2 as (m & Hm & ->).
  rewrite lookup_set_other in Hm by done.
  assert (m = n) as -> by congruence.
  eexists. split; [done|]. split.
  - rewrite lookup_insert_ne by done. by rewrite lookup_set_other.
  - by rewrite lookup_insert_eq.
Qed.

Lemma counted_update_rating_other (p q : string) (r : pyval) (i : nat) (n : Z)
    (t : TinyDB.table) :
  q <> p -> counted p i n t -> counted p i n (update_rating_db q r t).
Proof.
  intros Hqp (d & Hi & Hp & Hn).
  assert (has_path q d = false) as Hq.
  { destruct (has_path q d) eqn:E; [|done].
    destruct Hqp. eapply has_path_inj; [done|by apply has_path_true]. }
  assert (TinyDB.update {[ "rating" := r ]} (has_path q) t !! i = Some d) as Hi1.
  { rewrite update_lookup, Hi. simpl. by rewrite Hq. }
  unfold update_rating_db.
  destruct (TinyDB.update_with _ _ _) as [t2|] eqn:Ht2; [|by exists d].
  apply update_with_Forall2 in Ht2.
  destruct (Forall2_lookup_l _ _ _ _ _ Ht2 Hi1) as (d2 & Hi2 & Hd2).
  rewrite Hq in Hd2. subst d2. by exists d.
Qed.

(** One call: the counter goes up by one for [update_rating] on the
    record's path, and stays for every other call. *)
Lemma counted_after (c : call) (p : string) (i : nat) (n : Z)
    (self : EloPicDB) :
  unique_paths (_db self) -> counted p i n (_db self) ->
  counted p i (n + updates_of p [c]) (_db (after c self)).
Proof.
  intros Hu Hc. rewrite after_db. destruct c as [a l|l|q r|ps]; simpl.
  - rewrite Z.add_0_r. by apply counted_validate_db.
  - rewrite Z.add_0_r. by apply counted_validate_db.
  - destruct (String.eqb_spec q p) as [->|Hqp].
    + by apply counted_update_rating_same.
    + rewrite Z.add_0_r. by apply counted_update_rating_other.
  - rewrite Z.add_0_r. by apply counted_ignore_pictures.
Qed.

Lemma counted_after_all (cs : list call) (p : string) (i : nat) (n : Z)
    (self : EloPicDB) :
  unique_paths (_db self) -> counted p i n (_db self) ->
  counted p i (n + updates_of p cs) (_db (after_all cs self)).
Proof.
  revert self n. induction cs as [|c cs IH]; intros self n Hu Hc.
  - simpl. by rewrite Z.add_0_r.
  - change (c :: cs) with ([c] ++ cs)%list.
    rewrite updates_of_app, Z.add_assoc. simpl.
    apply IH; [by apply after_unique | by apply counted_after].
Qed.

End SeenCount.

Lemma update_rating_run_Returns (p : string) (r : pyval)
    (self : EloPic.EloPicDB) (t2 : TinyDB.table) :
  TinyDB.update_with (TinyDB.increment "seen_count") (has_path p)
    (TinyDB.update {[ "rating" := r ]} (has_path p) (EloPic._db self))
  = Returns t2 ->
  EloPic.update_rating p r self
  = ({| EloPic._db := t2; EloPic._dir := EloPic._dir self |}, Returns tt).
Proof.
  intros Ht2.
  unfold EloPic.update_rating, EloPic.bind, EloPic.db_write, EloPic.db_try_write.
  simpl. fold (has_path p). by rewrite Ht2.
Qed.

(** C7 (the seen counter counts the updates).  In a store with at most one
    record per path, take the record of path [p], seen [n] times.  A call of
    [update_rating] on [p] returns normally and leaves it seen [n + 1]
    times.  After any run of calls it has been seen [n] plus the number of
    [update_rating] calls on [p] in the run, so a record that starts at [0]
    counts exactly those calls, and the counter never goes down as the run
    is extended. *)
Theorem seen_count_counts_updates (INITIAL_ELO_SCORE : pyval)
    (cs cs' : list call) (self : EloPic.EloPicDB) (p : string) (i : nat)
    (n : Z) (r : pyval) :
  unique_paths (EloPic._db self) ->
  counted p i n (EloPic._db self) ->
  (exists s1, EloPic.update_rating p r self = (s1, Returns tt) /\
              counted p i (n + 1) (EloPic._db s1)) /\
  counted p i (n + updates_of p cs)
    (EloPic._db (after_all INITIAL_ELO_SCORE cs self)) /\
  (exists m m',
      counted p i m (EloPic._db (after_all INITIAL_ELO_SCORE cs self)) /\
      counted p i m'
        (EloPic._db (after_all INITIAL_ELO_SCORE (cs ++ cs') self)) /\
      m <= m').
Proof.
  intros Hu Hc. split; [|split].
  - destruct (update_rating_Returns p r i n _ Hu Hc) as [t2 Ht2].
    eexists. split; [by apply update_rating_run_Returns|]. simpl.
    pose proof (counted_update_rating_same p r i n _ Hu Hc) as H.
    unfold update_rating_db in H. by rewrite Ht2 in H.
  - by apply counted_after_all.
  - exists (n + updates_of p cs), (n + updates_of p (cs ++ cs')).
    split; [by apply counted_after_all|].
    split; [by apply counted_after_all|].
    rewrite updates_of_app. pose proof (updates_of_nonneg p cs'). lia.
Qed.

(** ** Unknown paths *)

(** C3, as the code has it.  For a path without a record, [get_rating]
    raises to the caller: the lookup yields [None] and subscripting it is a
    [TypeError]; the store is unchanged and nothing is tried again.
    [update_rating] does not fail: both of its updates match no record, it
    returns normally and the store is unchanged. *)
Theorem unknown_path_outcomes (self : EloPic.EloPicDB) (p : string)
    (r : pyval) :
  TinyDB.search (has_path p) (EloPic._db self) = [] ->
  EloPic.get_rating p self
    = (self, Raises (mk_exc TypeError
                       "'NoneType' object has no attribute '__getitem__'")) /\
  EloPic.update_rating p r self = (self, Returns tt).
Proof.
  intros Hs. split.
  - unfold EloPic.get_rating, EloPic.bind, EloPic.db_read, TinyDB.get. simpl.
    fold (has_path p). by rewrite Hs.
  - rewrite (update_rating_run_Returns p r self (EloPic._db self)).
    + by destruct self.
    + rewrite update_no_match by done. by apply update_with_no_match.
Qed.

(** ** Ignoring pictures *)

Section IgnoreExclusion.

Import EloPic.

Lemma row_of_Returns (d : dict) (row : list pyval) :
  row_of d = Returns row ->
  exists pa sc ra ig,
    d !! "path" = Some pa /\ d !! "seen_count" = Some sc /\
    d !! "rating" = Some ra /\ d !! "ignore" = Some ig /\
    row = [pa; sc; ra; ig].
Proof.
  unfold row_of, collect, dict_getitem.
  destruct (d !! "path") as [pa|]; [|done].
  destruct (d !! "seen_count") as [sc|]; [|done].
  destruct (d !! "rating") as [ra|]; [|done].
  destruct (d !! "ignore") as [ig|]; [|done].
  intros H. inversion H. by exists pa, sc, ra, ig.
Qed.

Lemma ignored_by_path (ps : list string) (d : dict) (pa : pyval) :
  d !! "path" = Some pa ->
  ignored_by ps d = true <-> In pa (List.map VStr ps).
Proof.
  intros Hpa. unfold ignored_by. rewrite existsb_exists, in_map_iff.
  split; intros (p & H1 & H2).
  - exists p. apply has_path_true in H2. split; [congruence|done].
  - exists p. split; [done|]. apply has_path_true. congruence.
Qed.

Lemma row_of_ignored (ps : list string) (d : dict) (row : list pyval) :
  row_of d = Returns row ->
  row_of (if ignored_by ps d then {[ "ignore" := VInt 1 ]} ∪ d else d)
  = Returns (ignore_row ps row).
Proof.
  intros Hrow.
  destruct (row_of_Returns _ _ Hrow) as (pa & sc & ra & ig & Hp & Hs & Hr & Hi & ->).
  pose proof (ignored_by_path ps d pa Hp) as Hiff.
  unfold ignore_row. destruct (ignored_by ps d).
  - rewrite decide_True by (by apply list_elem_of_In, Hiff).
    unfold row_of, collect, dict_getitem.
    rewrite !lookup_set_other by done. rewrite lookup_set_same.
    by rewrite Hp, Hs, Hr.
  - rewrite decide_False; [done|].
    intros Hin. by apply list_elem_of_In, Hiff in Hin.
Qed.

Lemma collect_map_Forall2 {A B} (f f' : A -> outcome B) (g : A -> A)
    (h : B -> B) (l : list A) (r : list B) :
  (forall a b, f a = Returns b -> f' (g a) = Returns (h b)) ->
  collect f l = Returns r ->
  collect f' (List.map g l) = Returns (List.map h r).
Proof.
  intros Hfg. revert r. induction l as [|a l IH]; simpl; intros r H.
  - by inversion H.
  - destruct (f a) as [b|] eqn:Ea; [|done].
    destruct (collect f l) as [bs|]; [|done].
    inversion H. simpl. by rewrite (Hfg _ _ Ea), (IH bs).
Qed.

Lemma to_list_run (self : EloPicDB) :
  to_list self = (self, collect row_of (_db self)).
Proof. done. Qed.

End IgnoreExclusion.


(** ** Errors that never reach the caller *)

(** C4, on a data file with two records for [a.jpg].  The round for
    [a.jpg] ends in [EloPicDBError] with the path in its message, the round
    for [b.jpg] still runs (its record is inserted), and the handler puts
    the file name in front of each message.  None of it reaches the caller:
    [validate] returns [None] and [load_from_disk] returns normally, with
    both records of [a.jpg] still in the store. *)
Theorem duplicate_error_is_dropped (INITIAL_ELO_SCORE : pyval) :
  let self := {| EloPic._db := Examples.duplicate_table; EloPic._dir := "/pics" |} in
  let loaded :=
    {| EloPic._db := (Examples.duplicate_table
                      ++ [EloPic.new_record INITIAL_ELO_SCORE "/pics/b.jpg"])%list;
       EloPic._dir := "/pics" |} in
  EloPic.for_in ["a.jpg"; "b.jpg"; "elopic.data"]
    (EloPic.validate_round INITIAL_ELO_SCORE) self
  = (loaded,
     Returns
       [Some (mk_exc EloPicDBError
                ("Error while validating a.jpg: "
                 +:+ "Multiple entries for the same image: "
                 +:+ EloPic.dquote +:+ "/pics/a.jpg" +:+ EloPic.dquote +:+ "."));
        Some (mk_exc IndexError
                "Error while validating b.jpg: list index out of range");
        None]) /\
  EloPic.validate INITIAL_ELO_SCORE ["a.jpg"; "b.jpg"; "elopic.data"] self
  = (loaded, Returns tt) /\
  EloPic.load_from_disk INITIAL_ELO_SCORE Examples.duplicate_dir
  = Returns loaded.
Proof. simpl. split; [|split]; vm_compute; reflexivity. Qed.

(** C1 fails for a data file with two records for one image: the load
    returns normally and both records are still in the store. *)
Lemma duplicate_records_survive_load :
  exists s : EloPic.EloPicDB,
    EloPic.load_from_disk Examples.initial_rating Examples.duplicate_dir
    = Returns s /\
    length (TinyDB.search (has_path "/pics/a.jpg") (EloPic._db s)) = 2%nat /\
    ~ unique_paths (EloPic._db s).
Proof.
  eexists. split; [by vm_compute|]. split; [by vm_compute|].
  intros Hu. specialize (Hu "/pics/a.jpg"). vm_compute in Hu. lia.
Qed.

(** C3 fails for [update_rating]: on a path without a record it returns
    normally. *)
Lemma update_rating_unknown_path_returns :
  TinyDB.search (has_path "/pics/zzz.jpg") (EloPic._db Examples.small_store) = [] /\
  EloPic.update_rating "/pics/zzz.jpg" (VInt 1516) Examples.small_store
  = (Examples.small_store, Returns tt) /\
  ~ (exists err, snd (EloPic.update_rating "/pics/zzz.jpg" (VInt 1516)
                        Examples.small_store) = Raises err).
Proof.
  split; [by vm_compute|]. split; [by vm_compute|].
  intros [err H]. vm_compute in H. discriminate.
Qed.

(** C5 fails for a record whose image is gone, and for a record that is
    not the only one of its image: in both cases the load returns and the
    records are still without [seen_count] and [ignore]. *)
Lemma legacy_records_left_unmigrated :
  Examples.legacy_record !! "seen_count" = None /\
  Examples.legacy_record !! "ignore" = None /\
  EloPic.load_from_disk Examples.initial_rating Examples.stale_dir
  = Returns {| EloPic._db := [Examples.legacy_record]; EloPic._dir := "/pics" |} /\
  EloPic.load_from_disk Examples.initial_rating Examples.duplicate_legacy_dir
  = Returns {| EloPic._db := [Examples.legacy_record; Examples.legacy_record];
               EloPic._dir := "/pics" |}.
Proof.
  split; [done|]. split; [done|]. split; by vm_compute.
Qed.

(** ** The statements at concrete stores *)

Section Concrete.

Import EloPic Examples.

(** Tables whose records carry pairwise different paths have at most one
    record per path. *)
Lemma unique_paths_NoDup (t : TinyDB.table) :
  NoDup (path_values t) -> unique_paths t.
Proof.
  intros Hnd p. induction t as [|d t IH]; simpl; [lia|].
  unfold path_values in Hnd. simpl in Hnd.
  destruct (has_path p d) eqn:Hp.
  - apply has_path_true in Hp. rewrite Hp in Hnd. simpl in Hnd.
    apply NoDup_cons in Hnd as [Hnotin Hnd].
    assert (TinyDB.search (has_path p) t = []) as ->; [|simpl; lia].
    destruct (TinyDB.search (has_path p) t) as [|e l] eqn:Es; [done|].
    destruct Hnotin. apply list_elem_of_omap. exists e. split.
    + apply list_elem_of_In.
      assert (In e (TinyDB.search (has_path p) t)) as Hin by (rewrite Es; by left).
      by apply search_In in Hin as [? _].
    + apply has_path_true. by eapply search_singleton_head.
  - apply IH. destruct (d !! "path"); simpl in Hnd; [|done].
    by apply NoDup_cons in Hnd as [_ ?].
Qed.

End Concrete.

Lemma uniqueness_of_records_witness :
  TinyDB.open (EloPic.dir_data Examples.legacy_dir)
    = Returns [Examples.legacy_record] /\
  unique_paths [Examples.legacy_record] /\
  unique_paths (EloPic._db Examples.small_store) /\
  (exists s,
      EloPic.load_from_disk Examples.initial_rating Examples.legacy_dir
      = Returns s /\
      unique_paths (EloPic._db s) /\
      unique_paths
        (EloPic._db (after_all Examples.initial_rating
           [CallUpdateRating "/pics/a.jpg" (VInt 1516);
            CallLoadFromDisk "/pics" ["a.jpg"; "c.jpg"]] s))) /\
  unique_paths
    (EloPic._db (after Examples.initial_rating
       (CallValidate ["a.jpg"; "e.jpg"]) Examples.small_store)).
Proof.
  assert (Hu0 : unique_paths [Examples.legacy_record]).
  { apply unique_paths_NoDup. apply (bool_decide_unpack _). vm_compute. exact I. }
  assert (Hu : unique_paths (EloPic._db Examples.small_store)).
  { apply unique_paths_NoDup. apply (bool_decide_unpack _). vm_compute. exact I. }
  destruct (uniqueness_of_records Examples.initial_rating Examples.legacy_dir
              [Examples.legacy_record]
              [CallUpdateRating "/pics/a.jpg" (VInt 1516);
               CallLoadFromDisk "/pics" ["a.jpg"; "c.jpg"]]
              (CallValidate ["a.jpg"; "e.jpg"]) Examples.small_store
              "/pics/e.jpg" (VInt 1516) ["/pics/b.jpg"] eq_refl Hu0 Hu)
    as (Hload & Hc & _).
  split; [reflexivity|]. split; [exact Hu0|]. split; [exact Hu|].
  split; [exact Hload | exact Hc].
Defined.


Lemma unknown_path_outcomes_witness :
  TinyDB.search (has_path "/pics/zzz.jpg") (EloPic._db Examples.small_store) = [] /\
  EloPic.get_rating "/pics/zzz.jpg" Examples.small_store
    = (Examples.small_store,
       Raises (mk_exc TypeError
                 "'NoneType' object has no attribute '__getitem__'")) /\
  EloPic.update_rating "/pics/zzz.jpg" (VInt 1516) Examples.small_store
    = (Examples.small_store, Returns tt).
Proof.
  assert (Hs : TinyDB.search (has_path "/pics/zzz.jpg")
                 (EloPic._db Examples.small_store) = []) by reflexivity.
  split; [exact Hs|].
  exact (unknown_path_outcomes Examples.small_store "/pics/zzz.jpg" (VInt 1516) Hs).
Defined.

Lemma migration_of_listed_record_witness :
  TinyDB.open (EloPic.dir_data Examples.legacy_dir)
    = Returns [Examples.legacy_record] /\
  [Examples.legacy_record] !! 0%nat = Some Examples.legacy_record /\
  Examples.legacy_record !! "path" = Some (VStr "/pics/a.jpg") /\
  exists (s : EloPic.EloPicDB) (d' : dict),
    EloPic.load_from_disk Examples.initial_rating Examples.legacy_dir
      = Returns s /\
    EloPic._db s !! 0%nat = Some d' /\
    d' !! "seen_count" = Some (VInt 0) /\
    d' !! "ignore" = Some (VInt 0) /\
    d' !! "path" = Some (VStr "/pics/a.jpg") /\
    d' !! "rating" = Some (VInt 1420).
Proof.
  destruct (migration_of_listed_record Examples.initial_rating
              Examples.legacy_dir [Examples.legacy_record] 0
              Examples.legacy_record "/pics/a.jpg" eq_refl eq_refl eq_refl)
    as (s & Hload & Hmig & _ & _).
  destruct Hmig as (d' & Hi & _ & Hsc & Hig & Hp & Hr & _).
  { simpl. auto. }
  { reflexivity. }
  split; [reflexivity|]. split; [reflexivity|]. split; [reflexivity|].
  exists s, d'. split; [exact Hload|]. split; [exact Hi|].
  split; [exact Hsc|]. split; [exact Hig|]. split; [exact Hp | exact Hr].
Defined.

Lemma idempotent_reconciliation_witness :
  TinyDB.open (EloPic.dir_data Examples.fresh_dir) = Returns [] /\
  exists s : EloPic.EloPicDB,
    EloPic.load_from_disk Examples.initial_rating Examples.fresh_dir
      = Returns s /\
    EloPic.load_from_disk Examples.initial_rating
      (written_back Examples.fresh_dir s) = Returns s.
Proof.
  split; [reflexivity|].
  exact (idempotent_reconciliation Examples.initial_rating Examples.fresh_dir
           [] eq_refl).
Defined.

Lemma seen_count_counts_updates_witness :
  unique_paths (EloPic._db Examples.small_store) /\
  counted "/pics/b.jpg" 1 3 (EloPic._db Examples.small_store) /\
  (exists s1,
      EloPic.update_rating "/pics/b.jpg" (VInt 1616) Examples.small_store
      = (s1, Returns tt) /\
      counted "/pics/b.jpg" 1 4 (EloPic._db s1)) /\
  counted "/pics/b.jpg" 1 5
    (EloPic._db (after_all Examples.initial_rating
       [CallUpdateRating "/pics/b.jpg" (VInt 1616);
        CallIgnorePictures ["/pics/a.jpg"];
        CallUpdateRating "/pics/d.jpg" (VInt 1484);
        CallValidate ["b.jpg"; "e.jpg"];
        CallUpdateRating "/pics/b.jpg" (VInt 1630)] Examples.small_store)).
Proof.
  assert (Hu : unique_paths (EloPic._db Examples.small_store)).
  { apply unique_paths_NoDup. apply (bool_decide_unpack _). vm_compute. exact I. }
  assert (Hc : counted "/pics/b.jpg" 1 3 (EloPic._db Examples.small_store)).
  { eexists. split; [reflexivity|]. split; reflexivity. }
  destruct (seen_count_counts_updates Examples.initial_rating
              [CallUpdateRating "/pics/b.jpg" (VInt 1616);
               CallIgnorePictures ["/pics/a.jpg"];
               CallUpdateRating "/pics/d.jpg" (VInt 1484);
               CallValidate ["b.jpg"; "e.jpg"];
               CallUpdateRating "/pics/b.jpg" (VInt 1630)]
              [] Examples.small_store "/pics/b.jpg" 1 3 (VInt 1616) Hu Hc)
    as (Hone & Hrun & _).
  split; [exact Hu|]. split; [exact Hc|]. split; [exact Hone | exact Hrun].
Defined.

Lemma new_record_initialised_witness :
  TinyDB.open (EloPic.dir_data Examples.fresh_dir) = Returns [] /\
  In "B.JPEG" (EloPic.dir_listing Examples.fresh_dir) /\
  EloPic.is_image "B.JPEG" = true /\
  TinyDB.search (has_path (path_join "/pics" "B.JPEG")) [] = [] /\
  exists (s : EloPic.EloPicDB) (d : dict),
    EloPic.load_from_disk Examples.initial_rating Examples.fresh_dir
      = Returns s /\
    TinyDB.search (has_path "/pics/B.JPEG") (EloPic._db s) = [d] /\
    d !! "path" = Some (VStr "/pics/B.JPEG") /\
    d !! "rating" = Some (VInt 1500) /\
    d !! "seen_count" = Some (VInt 0) /\
    d !! "ignore" = Some (VInt 0).
Proof.
  assert (Hin : In "B.JPEG" (EloPic.dir_listing Examples.fresh_dir))
    by (simpl; auto).
  assert (Himg : EloPic.is_image "B.JPEG" = true) by reflexivity.
  split; [reflexivity|]. split; [exact Hin|]. split; [exact Himg|].
  split; [reflexivity|].
  exact (new_record_initialised Examples.initial_rating Examples.fresh_dir
           [] "B.JPEG" eq_refl Hin Himg eq_refl).
Defined.

Lemma validate_image_new_path_raises_witness :
  let self := {| EloPic._db := []; EloPic._dir := "/pics" |} in
  TinyDB.search (has_path "/pics/a.jpg") (EloPic._db self) = [] /\
  EloPic._validate_image Examples.initial_rating "/pics/a.jpg" self
    = ({| EloPic._db := [EloPic.new_record Examples.initial_rating "/pics/a.jpg"];
          EloPic._dir := "/pics" |},
       Raises (mk_exc IndexError "list index out of range")) /\
  exists s : EloPic.EloPicDB,
    EloPic.validate Examples.initial_rating ["a.jpg"; "elopic.data"] self
      = (s, Returns tt) /\
    TinyDB.search (has_path "/pics/a.jpg") (EloPic._db s)
      = [EloPic.new_record Examples.initial_rating "/pics/a.jpg"].
Proof.
  intros self.
  destruct (validate_image_new_path_raises Examples.initial_rating self
              "/pics/a.jpg" eq_refl) as (Hrun & _ & Hval).
  destruct (Hval "a.jpg" ["a.jpg"; "elopic.data"] eq_refl eq_refl
              (or_introl eq_refl)) as (_ & Hv).
  split; [reflexivity|]. split; [exact Hrun | exact Hv].
Defined.

(** ** What the calls keep of a record *)

Section Keeping.

Variable INITIAL_ELO_SCORE : pyval.

Import EloPic.

Abbreviation validate_image_db := (Props.validate_image_db INITIAL_ELO_SCORE).
Abbreviation validate_db := (Props.validate_db INITIAL_ELO_SCORE).

(** [_validate_image] keeps every record where it is, with every field it
    has. *)
Lemma validate_image_keeps (q : string) (t : TinyDB.table) (i : nat)
    (d : dict) :
  t !! i = Some d ->
  exists d', validate_image_db q t !! i = Some d' /\
             forall k v, d !! k = Some v -> d' !! k = Some v.
Proof.
  intros Hi. destruct (has_path q d) eqn:Hq.
  - destruct (TinyDB.search (has_path q) t) as [|d0 [|d1 l]] eqn:Es.
    + assert (In d (TinyDB.search (has_path q) t)) as Hin
        by (apply search_In; split; [by eapply lookup_In | done]).
      rewrite Es in Hin. destruct Hin.
    + assert (In d (TinyDB.search (has_path q) t)) as Hin
        by (apply search_In; split; [by eapply lookup_In | done]).
      rewrite Es in Hin. destruct Hin as [->|[]].
      exists (migrate d). split; [by apply validate_image_lookup_same|].
      intros k v. apply migrate_lookup_present.
    + exists d. unfold Props.validate_image_db. by rewrite Es.
  - exists d. split; [by apply validate_image_lookup_other | done].
Qed.

Lemma validate_db_keeps (dir : string) (listing : list string)
    (t : TinyDB.table) (i : nat) (d : dict) :
  t !! i = Some d ->
  exists d', validate_db dir listing t !! i = Some d' /\
             forall k v, d !! k = Some v -> d' !! k = Some v.
Proof.
  revert t d. induction listing as [|img listing IH]; intros t d Hi.
  - by exists d.
  - simpl. destruct (is_image img); [|by apply IH].
    destruct (validate_image_keeps (path_join dir img) t i d Hi) as (d1 & H1 & K1).
    destruct (IH _ _ H1) as (d2 & H2 & K2).
    exists d2. split; [done|]. intros k v Hk. by apply K2, K1.
Qed.

Lemma validate_db_length (dir : string) (listing : list string)
    (t : TinyDB.table) :
  (length t <= length (validate_db dir listing t))%nat.
Proof.
  revert t. induction listing as [|img listing IH]; intros t; [done|].
  simpl. destruct (is_image img); [|by apply IH].
  etrans; [|apply IH]. rewrite validate_image_length.
  destruct (TinyDB.search _ t); lia.
Qed.

Lemma validate_db_no_images (dir : string) (listing : list string)
    (t : TinyDB.table) :
  Forall (fun img => is_image img = false) listing ->
  validate_db dir listing t = t.
Proof.
  induction 1 as [|img listing Himg _ IH]; [done|].
  simpl. by rewrite Himg.
Qed.

(** [update_rating q r] leaves the records of other paths as they are, also
    when it raises. *)
Lemma update_rating_lookup_other (q : string) (r : pyval) (t : TinyDB.table)
    (i : nat) (d : dict) :
  t !! i = Some d -> has_path q d = false ->
  update_rating_db q r t !! i = Some d.
Proof.
  intros Hi Hq.
  assert (TinyDB.update {[ "rating" := r ]} (has_path q) t !! i = Some d) as Hi1.
  { rewrite update_lookup, Hi. simpl. by rewrite Hq. }
  unfold update_rating_db.
  destruct (TinyDB.update_with _ _ _) as [t2|] eqn:Ht2; [|done].
  apply update_with_Forall2 in Ht2.
  destruct (Forall2_lookup_l _ _ _ _ _ Ht2 Hi1) as (d2 & Hi2 & Hd2).
  rewrite Hq in Hd2. by subst d2.
Qed.

(** [update_rating] touches no field but [rating] and [seen_count]. *)
Lemma update_rating_lookup (q : string) (r : pyval) (t : TinyDB.table)
    (i : nat) (d : dict) :
  t !! i = Some d ->
  exists d', update_rating_db q r t !! i = Some d' /\
             forall k, k <> "rating" -> k <> "seen_count" -> d' !! k = d !! k.
Proof.
  intros Hi. destruct (has_path q d) eqn:Hq;
    [|exists d; split; [by apply update_rating_lookup_other | done]].
  assert (TinyDB.update {[ "rating" := r ]} (has_path q) t !! i
          = Some ({[ "rating" := r ]} ∪ d)) as Hi1.
  { rewrite update_lookup, Hi. simpl. by rewrite Hq. }
  unfold update_rating_db.
  destruct (TinyDB.update_with _ _ _) as [t2|] eqn:Ht2.
  - apply update_with_Forall2 in Ht2.
    destruct (Forall2_lookup_l _ _ _ _ _ Ht2 Hi1) as (d2 & Hi2 & Hd2).
    exists d2. split; [done|]. intros k Hr Hs.
    destruct (has_path q ({[ "rating" := r ]} ∪ d)).
    + apply increment_Returns in Hd2 as (m & _ & ->).
      rewrite lookup_insert_ne by done. by apply lookup_set_other.
    + subst d2. by apply lookup_set_other.
  - eexists. split; [done|]. intros k Hr Hs. by apply lookup_set_other.
Qed.

End Keeping.

(** X3 (validate keeps records).  [validate] deletes nothing and overwrites
    nothing: it returns normally,
    every record stays at its position with every field it had (so records
    of files that are gone stay, and no path or rating changes), and a
    listing without image files leaves the object as it was. *)
Theorem validate_keeps_records (INITIAL_ELO_SCORE : pyval)
    (listing : list string) (self : EloPic.EloPicDB) (i : nat) (d : dict) :
  EloPic._db self !! i = Some d ->
  exists (s : EloPic.EloPicDB) (d' : dict),
    EloPic.validate INITIAL_ELO_SCORE listing self = (s, Returns tt) /\
    EloPic._dir s = EloPic._dir self /\
    EloPic._db s !! i = Some d' /\
    (forall k v, d !! k = Some v -> d' !! k = Some v) /\
    (length (EloPic._db self) <= length (EloPic._db s))%nat /\
    (Forall (fun img => EloPic.is_image img = false) listing -> s = self).
Proof.
  intros Hi.
  destruct (validate_db_keeps INITIAL_ELO_SCORE (EloPic._dir self) listing _ i d Hi)
    as (d' & Hi' & Hk).
  eexists _, d'. split; [apply validate_run|]. simpl.
  split; [done|]. split; [done|]. split; [done|].
  split; [apply validate_db_length|].
  intros Hno. rewrite validate_db_no_images by done. by destruct self.
Qed.

Section OtherCalls.

Variable INITIAL_ELO_SCORE : pyval.

Import EloPic.

Abbreviation after := (Props.after INITIAL_ELO_SCORE).
Abbreviation after_all := (Props.after_all INITIAL_ELO_SCORE).

Lemma rating_kept_after (c : call) (self : EloPicDB) (i : nat) (d : dict)
    (p : string) (r : pyval) :
  _db self !! i = Some d -> d !! "path" = Some (VStr p) ->
  d !! "rating" = Some r -> updates_of p [c] = 0 ->
  exists d', _db (after c self) !! i = Some d' /\
             d' !! "path" = Some (VStr p) /\ d' !! "rating" = Some r.
Proof.
  intros Hi Hp Hr Hc. rewrite after_db.
  destruct c as [a l|l|q r'|ps]; simpl in Hc.
  - destruct (validate_db_keeps INITIAL_ELO_SCORE a l _ i d Hi) as (d' & H1 & K).
    exists d'. auto.
  - destruct (validate_db_keeps INITIAL_ELO_SCORE (_dir self) l _ i d Hi)
      as (d' & H1 & K).
    exists d'. auto.
  - exists d. split; [|done]. apply update_rating_lookup_other; [done|].
    destruct (has_path q d) eqn:Hq; [|done].
    apply has_path_true in Hq.
    assert (q = p) as -> by congruence.
    rewrite String.eqb_refl in Hc. lia.
  - rewrite ignore_pictures_lookup, Hi. simpl. eexists. split; [done|].
    destruct (ignored_by ps d); [|done]. by rewrite !lookup_set_other.
Qed.

Lemma rating_kept_after_all (cs : list call) (self : EloPicDB) (i : nat)
    (d : dict) (p : string) (r : pyval) :
  _db self !! i = Some d -> d !! "path" = Some (VStr p) ->
  d !! "rating" = Some r -> updates_of p cs = 0 ->
  exists d', _db (after_all cs self) !! i = Some d' /\
             d' !! "path" = Some (VStr p) /\ d' !! "rating" = Some r.
Proof.
  revert self d. induction cs as [|c cs IH]; intros self d Hi Hp Hr Hc.
  - by exists d.
  - change (c :: cs) with ([c] ++ cs)%list in Hc.
    rewrite updates_of_app in Hc.
    pose proof (updates_of_nonneg p [c]). pose proof (updates_of_nonneg p cs).
    destruct (rating_kept_after c self i d p r Hi Hp Hr) as (d1 & H1 & P1 & R1);
      [lia|].
    simpl. apply (IH _ d1); [done|done|done|lia].
Qed.

Lemma ignored_after (c : call) (self : EloPicDB) (i : nat) (d : dict)
    (v : pyval) :
  _db self !! i = Some d -> d !! "ignore" = Some v -> v <> VInt 0 ->
  exists d' v', _db (after c self) !! i = Some d' /\
                d' !! "ignore" = Some v' /\ v' <> VInt 0.
Proof.
  intros Hi Hv Hne. rewrite after_db. destruct c as [a l|l|q r'|ps].
  - destruct (validate_db_keeps INITIAL_ELO_SCORE a l _ i d Hi) as (d' & H1 & K).
    exists d', v. auto.
  - destruct (validate_db_keeps INITIAL_ELO_SCORE (_dir self) l _ i d Hi)
      as (d' & H1 & K).
    exists d', v. auto.
  - destruct (update_rating_lookup q r' _ i d Hi) as (d' & H1 & K).
    exists d', v. split; [done|]. split; [|done]. by rewrite K.
  - rewrite ignore_pictures_lookup, Hi. simpl.
    destruct (ignored_by ps d).
    + exists ({[ "ignore" := VInt 1 ]} ∪ d), (VInt 1).
      split; [done|]. split; [apply lookup_set_same | done].
    + by exists d, v.
Qed.

Lemma ignored_after_all (cs : list call) (self : EloPicDB) (i : nat)
    (d : dict) (v : pyval) :
  _db self !! i = Some d -> d !! "ignore" = Some v -> v <> VInt 0 ->
  exists d' v', _db (after_all cs self) !! i = Some d' /\
                d' !! "ignore" = Some v' /\ v' <> VInt 0.
Proof.
  revert self d v. induction cs as [|c cs IH]; intros self d v Hi Hv Hne.
  - by exists d, v.
  - destruct (ignored_after c self i d v Hi Hv Hne) as (d1 & v1 & H1 & V1 & N1).
    simpl. by apply (IH _ d1 v1).
Qed.

End OtherCalls.

(** X5 (ratings).  Only [update_rating] on a record's own path changes its
    rating: through
    any run of calls without such an update, the record stays at its
    position with the same path and the same rating. *)
Theorem rating_changes_only_by_update_rating (INITIAL_ELO_SCORE : pyval)
    (cs : list call) (self : EloPic.EloPicDB) (i : nat) (d : dict)
    (p : string) (r : pyval) :
  EloPic._db self !! i = Some d ->
  d !! "path" = Some (VStr p) ->
  d !! "rating" = Some r ->
  updates_of p cs = 0 ->
  exists d',
    EloPic._db (after_all INITIAL_ELO_SCORE cs self) !! i = Some d' /\
    d' !! "path" = Some (VStr p) /\
    d' !! "rating" = Some r.
Proof. apply rating_kept_after_all. Qed.

(** X9 (ignoring is final).  There is no way back from ignoring: a record whose [ignore] field is
    set to something other than [0] keeps such a value through every run of
    calls, and [get_all] does not return it. *)
Theorem ignored_record_stays_inactive (INITIAL_ELO_SCORE : pyval)
    (cs : list call) (self : EloPic.EloPicDB) (i : nat) (d : dict)
    (v : pyval) :
  EloPic._db self !! i = Some d ->
  d !! "ignore" = Some v ->
  v <> VInt 0 ->
  exists d' v',
    EloPic._db (after_all INITIAL_ELO_SCORE cs self) !! i = Some d' /\
    d' !! "ignore" = Some v' /\
    v' <> VInt 0 /\
    forall act,
      EloPic.get_all (after_all INITIAL_ELO_SCORE cs self)
      = (after_all INITIAL_ELO_SCORE cs self, Returns act) ->
      ~ In d' act.
Proof.
  intros Hi Hv Hne.
  destruct (ignored_after_all INITIAL_ELO_SCORE cs self i d v Hi Hv Hne)
    as (d' & v' & H1 & V1 & N1).
  exists d', v'. split; [done|]. split; [done|]. split; [done|].
  intros act Hact Hin. unfold EloPic.get_all, EloPic.db_read in Hact.
  inversion Hact; subst act.
  apply search_In in Hin as [_ Hq].
  unfold TinyDB.where_eq, py_eq in Hq. rewrite V1 in Hq.
  apply bool_decide_eq_true in Hq. done.
Qed.

(** ** Loading, and reading a rating back *)

(** X2 (what loading a directory ends in).  For an existing directory, what
    [load_from_disk] ends in is decided by opening the data file alone:
    when the file is missing or can be parsed the call returns, with the
    directory's absolute path in [_dir], whatever [validate] ran into; when
    the file cannot be parsed the [ValueError] of the parser is raised
    again, its message rewritten to name the file. *)
Theorem load_from_disk_outcome (INITIAL_ELO_SCORE : pyval)
    (D : EloPic.directory) :
  match EloPic.dir_data D with
  | TinyDB.Corrupt why =>
      EloPic.load_from_disk INITIAL_ELO_SCORE D
      = Raises (mk_exc ValueError
          ("Unable to read "
           +:+ path_join (EloPic.dir_abspath D) EloPic.ELOPIC_DB_NAME
           +:+ ": " +:+ why +:+ EloPic.newline))
  | _ =>
      exists s : EloPic.EloPicDB,
        EloPic.load_from_disk INITIAL_ELO_SCORE D = Returns s /\
        EloPic._dir s = EloPic.dir_abspath D
  end.
Proof.
  destruct (EloPic.dir_data D) as [|why|t] eqn:HD.
  - eexists. split; [apply load_from_disk_run; by rewrite HD | done].
  - unfold EloPic.load_from_disk. by rewrite HD.
  - eexists. split; [apply load_from_disk_run; by rewrite HD | done].
Qed.

Section ReadingBack.

Import EloPic.

Lemma get_rating_run (p : string) (self : EloPicDB) (d : dict) (r : pyval)
    (l : list dict) :
  TinyDB.search (has_path p) (_db self) = d :: l ->
  d !! "rating" = Some r ->
  get_rating p self = (self, Returns r).
Proof.
  intros Hs Hr.
  unfold get_rating, bind, db_read, TinyDB.get, lift, dict_getitem. simpl.
  fold (has_path p). rewrite Hs. simpl. by rewrite Hr.
Qed.

(** With one record for the path, [update_rating] writes the rating and
    adds one to the counter of that record. *)
Lemma update_rating_lookup_same (p : string) (r : pyval) (i : nat) (n : Z)
    (d : dict) (t : TinyDB.table) :
  unique_paths t -> t !! i = Some d -> d !! "path" = Some (VStr p) ->
  d !! "seen_count" = Some (VInt n) ->
  update_rating_db p r t !! i
  = Some (<["seen_count" := VInt (n + 1)]> ({[ "rating" := r ]} ∪ d)).
Proof.
  intros Hu Hi Hp Hn.
  assert (Hc : counted p i n t) by (by exists d).
  destruct (update_rating_Returns p r i n t Hu Hc) as [t2 Ht2].
  unfold update_rating_db. rewrite Ht2.
  apply update_with_Forall2 in Ht2.
  assert (TinyDB.update {[ "rating" := r ]} (has_path p) t !! i
          = Some ({[ "rating" := r ]} ∪ d)) as Hi1.
  { rewrite update_lookup, Hi. simpl.
    by rewrite (proj2 (has_path_true p d) Hp). }
  destruct (Forall2_lookup_l _ _ _ _ _ Ht2 Hi1) as (d2 & Hi2 & Hd2).
  unfold has_path in Hd2. rewrite where_eq_union in Hd2 by done.
  fold (has_path p) in Hd2. rewrite (proj2 (has_path_true p d) Hp) in Hd2.
  apply increment_Returns in Hd2 as (m & Hm & ->).
  rewrite lookup_set_other in Hm by done.
  by assert (m = n) as -> by congruence.
Qed.

(** A transformation that raises the same error on every record it is
    applied to makes the whole update raise it. *)
Lemma update_with_Raises (f : dict -> outcome dict) (c : dict -> bool)
    (err : exc) (t : TinyDB.table) :
  (forall d, In d t -> c d = true -> f d = Raises err) ->
  TinyDB.search c t <> [] ->
  TinyDB.update_with f c t = Raises err.
Proof.
  induction t as [|d t IH]; intros Hf Hs; [done|].
  simpl in *. destruct (c d) eqn:Ec.
  - by rewrite (Hf d) by auto.
  - rewrite IH; [done| |done]. intros e He. apply Hf. by right.
Qed.

End ReadingBack.

(** X6 (write and read back).  What [update_rating] writes, [get_rating]
    reads: in a store with at
    most one record per path, for a path whose record has a counter,
    [update_rating p r] returns normally and afterwards [get_rating p]
    returns [r]. *)
Theorem update_rating_then_get_rating (self : EloPic.EloPicDB) (p : string)
    (r : pyval) (i : nat) (n : Z) :
  unique_paths (EloPic._db self) ->
  counted p i n (EloPic._db self) ->
  exists s1 : EloPic.EloPicDB,
    EloPic.update_rating p r self = (s1, Returns tt) /\
    EloPic.get_rating p s1 = (s1, Returns r).
Proof.
  intros Hu Hc.
  destruct (update_rating_Returns p r i n _ Hu Hc) as [t2 Ht2].
  eexists. split; [by apply update_rating_run_Returns|].
  destruct Hc as (d & Hi & Hp & Hn).
  pose proof (update_rating_lookup_same p r i n d _ Hu Hi Hp Hn) as Hl.
  pose proof (update_rating_unique p r _ Hu) as Hu2.
  unfold update_rating_db in Hl, Hu2. rewrite Ht2 in Hl, Hu2.
  eapply get_rating_run.
  - simpl. eapply unique_search; [done | exact Hl |].
    apply has_path_true. rewrite lookup_insert_ne by done.
    by rewrite lookup_set_other.
  - rewrite lookup_insert_ne by done. apply lookup_set_same.
Qed.

(** X7 (initial rating).  A new image starts at the initial score: for an image file of the
    listing whose path had no record, [get_rating] after [load_from_disk]
    returns [INITIAL_ELO_SCORE]. *)
Theorem new_image_rating (INITIAL_ELO_SCORE : pyval) (D : EloPic.directory)
    (t : TinyDB.table) (img : string) :
  TinyDB.open (EloPic.dir_data D) = Returns t ->
  In img (EloPic.dir_listing D) ->
  EloPic.is_image img = true ->
  TinyDB.search (has_path (path_join (EloPic.dir_abspath D) img)) t = [] ->
  exists s : EloPic.EloPicDB,
    EloPic.load_from_disk INITIAL_ELO_SCORE D = Returns s /\
    EloPic.get_rating (path_join (EloPic.dir_abspath D) img) s
    = (s, Returns INITIAL_ELO_SCORE).
Proof.
  intros Ht Hin Himg Hs.
  eexists. split; [by apply load_from_disk_run|].
  eapply get_rating_run.
  - simpl. by apply validate_db_new.
  - reflexivity.
Qed.

(** X8 (half update).  [update_rating] on a record without [seen_count] is a
    half update: in a
    store with at most one record per path, the rating is written, then the
    increment raises [KeyError] on the missing field, and the record is
    left with the new rating and still without a counter. *)
Theorem update_rating_without_seen_count (self : EloPic.EloPicDB)
    (p : string) (r : pyval) (i : nat) (d : dict) :
  unique_paths (EloPic._db self) ->
  EloPic._db self !! i = Some d ->
  d !! "path" = Some (VStr p) ->
  d !! "seen_count" = None ->
  exists s1 : EloPic.EloPicDB,
    EloPic.update_rating p r self = (s1, Raises (mk_exc KeyError "seen_count")) /\
    EloPic._db s1 !! i = Some ({[ "rating" := r ]} ∪ d) /\
    ({[ "rating" := r ]} ∪ d) !! "rating" = Some r /\
    ({[ "rating" := r ]} ∪ d) !! "seen_count" = None.
Proof.
  intros Hu Hi Hp Hn.
  assert (Hs : TinyDB.search (has_path p) (EloPic._db self) = [d])
    by (eapply unique_search; [done|done|by apply has_path_true]).
  set (t1 := TinyDB.update {[ "rating" := r ]} (has_path p) (EloPic._db self)).
  assert (Hs1 : TinyDB.search (has_path p) t1 = [{[ "rating" := r ]} ∪ d]).
  { unfold t1. rewrite search_update_same by done. by rewrite Hs. }
  assert (Hraise : TinyDB.update_with (TinyDB.increment "seen_count")
                     (has_path p) t1 = Raises (mk_exc KeyError "seen_count")).
  { apply update_with_Raises; [|by rewrite Hs1].
    intros e He Hpe.
    assert (In e (TinyDB.search (has_path p) t1)) as Hin by (by apply search_In).
    rewrite Hs1 in Hin. destruct Hin as [<-|[]].
    unfold TinyDB.increment. rewrite lookup_set_other by done. by rewrite Hn. }
  exists {| EloPic._db := t1; EloPic._dir := EloPic._dir self |}.
  split; [|split; [|split]].
  - unfold EloPic.update_rating, EloPic.bind, EloPic.db_write,
      EloPic.db_try_write. simpl. fold (has_path p). fold t1. by rewrite Hraise.
  - simpl. unfold t1. rewrite update_lookup, Hi. simpl.
    by rewrite (proj2 (has_path_true p d) Hp).
  - apply lookup_set_same.
  - by rewrite lookup_set_other.
Qed.

(** ** Full records, [to_list] and [get_headers] *)

Section FullRecords.

Variable INITIAL_ELO_SCORE : pyval.

Import EloPic.

Abbreviation new_record := (EloPic.new_record INITIAL_ELO_SCORE).
Abbreviation validate_image_db := (Props.validate_image_db INITIAL_ELO_SCORE).
Abbreviation validate_db := (Props.validate_db INITIAL_ELO_SCORE).
Abbreviation after := (Props.after INITIAL_ELO_SCORE).
Abbreviation after_all := (Props.after_all INITIAL_ELO_SCORE).

Lemma full_union (fields d : dict) :
  full_record d -> full_record (fields ∪ d).
Proof.
  unfold full_record. intros Hf. eapply Forall_impl; [exact Hf|].
  simpl. intros k [v Hv].
  destruct (fields !! k) as [w|] eqn:Hw.
  - exists w. by apply lookup_union_Some_l.
  - exists v. by rewrite lookup_union_r.
Qed.

Lemma full_insert (k : string) (v : pyval) (d : dict) :
  full_record d -> full_record (<[k := v]> d).
Proof.
  unfold full_record. intros Hf. eapply Forall_impl; [exact Hf|].
  simpl. intros k' Hk'.
  apply lookup_insert_is_Some. destruct (decide (k = k')); auto.
Qed.

Lemma full_new_record (p : string) : full_record (new_record p).
Proof. repeat constructor; by eexists. Qed.

Lemma update_full (fields : dict) (c : dict -> bool) (t : TinyDB.table) :
  Forall full_record t -> Forall full_record (TinyDB.update fields c t).
Proof.
  intros Hf. apply Forall_forall. intros d' Hd'.
  apply list_elem_of_In, in_map_iff in Hd' as (d & <- & Hd).
  rewrite Forall_forall in Hf. apply list_elem_of_In, Hf in Hd.
  destruct (c d); [by apply full_union | done].
Qed.

Lemma validate_image_full (p : string) (t : TinyDB.table) :
  Forall full_record t -> Forall full_record (validate_image_db p t).
Proof.
  intros Hf. unfold Props.validate_image_db.
  destruct (TinyDB.search (has_path p) t) as [|d [|d' l]]; [| |done].
  - apply Forall_app. split; [done|].
    constructor; [apply full_new_record | constructor].
  - destruct (dict_contains "seen_count" d), (dict_contains "ignore" d);
      repeat apply update_full; done.
Qed.

Lemma validate_db_full (dir : string) (listing : list string)
    (t : TinyDB.table) :
  Forall full_record t -> Forall full_record (validate_db dir listing t).
Proof.
  revert t. induction listing as [|img listing IH]; intros t Hf; [done|].
  simpl. apply IH. destruct (is_image img); [|done].
  by apply validate_image_full.
Qed.

Lemma update_rating_full (p : string) (r : pyval) (t : TinyDB.table) :
  Forall full_record t -> Forall full_record (update_rating_db p r t).
Proof.
  intros Hf. unfold update_rating_db.
  pose proof (update_full {[ "rating" := r ]} (has_path p) t Hf) as Hf1.
  destruct (TinyDB.update_with _ _ _) as [t2|] eqn:Ht2; [|done].
  apply update_with_Forall2 in Ht2.
  apply Forall_lookup. intros i d2 Hi2.
  destruct (Forall2_lookup_r _ _ _ _ _ Ht2 Hi2) as (d1 & Hi1 & Hd).
  pose proof (Forall_lookup_1 _ _ _ _ Hf1 Hi1) as Hd1.
  destruct (has_path p d1); [|by subst].
  apply increment_Returns in Hd as (n & _ & ->). by apply full_insert.
Qed.

Lemma ignore_pictures_full (ps : list string) (t : TinyDB.table) :
  Forall full_record t -> Forall full_record (ignore_pictures_db ps t).
Proof.
  revert t. induction ps as [|p ps IH]; intros t Hf; [done|].
  simpl. by apply IH, update_full.
Qed.

Lemma after_full (c : call) (self : EloPicDB) :
  Forall full_record (_db self) -> Forall full_record (_db (after c self)).
Proof.
  intros Hf. rewrite after_db. destruct c.
  - by apply validate_db_full.
  - by apply validate_db_full.
  - by apply update_rating_full.
  - by apply ignore_pictures_full.
Qed.

Lemma after_all_full (cs : list call) (self : EloPicDB) :
  Forall full_record (_db self) ->
  Forall full_record (_db (after_all cs self)).
Proof.
  revert self. induction cs as [|c cs IH]; intros self Hf; [done|].
  simpl. by apply IH, after_full.
Qed.

Lemma row_of_full (d : dict) :
  full_record d ->
  exists row, row_of d = Returns row /\ length row = 4%nat.
Proof.
  intros Hf. unfold full_record, COLUMNS in Hf.
  inversion_clear Hf as [|? ? [pa Hp] Hf1].
  inversion_clear Hf1 as [|? ? [sc Hs] Hf2].
  inversion_clear Hf2 as [|? ? [ra Hr] Hf3].
  inversion_clear Hf3 as [|? ? [ig Hi] _].
  exists [pa; sc; ra; ig]. split; [|done].
  unfold row_of, collect, dict_getitem. by rewrite Hp, Hs, Hr, Hi.
Qed.

Lemma row_of_not_full (d : dict) :
  ~ full_record d ->
  exists k, In k COLUMNS /\ row_of d = Raises (mk_exc KeyError k).
Proof.
  intros Hnf. unfold row_of, collect, dict_getitem, COLUMNS.
  destruct (d !! "path") as [pa|] eqn:Hp; [|exists "path"; simpl; auto].
  destruct (d !! "seen_count") as [sc|] eqn:Hs;
    [|exists "seen_count"; simpl; auto].
  destruct (d !! "rating") as [ra|] eqn:Hr; [|exists "rating"; simpl; auto].
  destruct (d !! "ignore") as [ig|] eqn:Hi; [|exists "ignore"; simpl; auto 6].
  destruct Hnf. repeat constructor; by eexists.
Qed.

Lemma full_record_dec (d : dict) : {full_record d} + {~ full_record d}.
Proof. unfold full_record. apply Forall_dec. intros k. apply _. Qed.

Lemma collect_rows_full (t : TinyDB.table) :
  Forall full_record t ->
  exists rows, collect row_of t = Returns rows /\
               length rows = length t /\
               Forall (fun row => length row = 4%nat) rows.
Proof.
  induction 1 as [|d t Hd _ (rows & Hrows & Hlen & Hall)].
  - exists []. by repeat split.
  - destruct (row_of_full d Hd) as (row & Hrow & Hl).
    exists (row :: rows). simpl. rewrite Hrow, Hrows.
    split; [done|]. split; [by rewrite Hlen | by constructor].
Qed.

Lemma collect_rows_not_full (t : TinyDB.table) :
  ~ Forall full_record t ->
  exists k, In k COLUMNS /\ collect row_of t = Raises (mk_exc KeyError k).
Proof.
  induction t as [|d t IH]; intros Hnf; [by destruct Hnf|].
  simpl. destruct (full_record_dec d) as [Hd|Hd].
  - destruct (row_of_full d Hd) as (row & -> & _).
    destruct IH as (k & Hk & ->); [|by exists k].
    intros Hf. apply Hnf. by constructor.
  - destruct (row_of_not_full d Hd) as (k & Hk & ->). by exists k.
Qed.

(** The records [validate] makes from nothing are all new records. *)
Lemma validate_image_all_new (p : string) (t : TinyDB.table) :
  Forall (fun d => exists q, d = new_record q) t ->
  Forall (fun d => exists q, d = new_record q) (validate_image_db p t).
Proof.
  intros Hn. unfold Props.validate_image_db.
  destruct (TinyDB.search (has_path p) t) as [|d [|d' l]] eqn:Es; [| |done].
  - apply Forall_app. split; [done|].
    constructor; [by exists p | constructor].
  - assert (In d (TinyDB.search (has_path p) t)) as Hin by (rewrite Es; by left).
    apply search_In in Hin as [Hin _].
    rewrite Forall_forall in Hn. apply list_elem_of_In, Hn in Hin as [q ->].
    rewrite <- Forall_forall in Hn. done.
Qed.

Lemma validate_db_all_new (dir : string) (listing : list string)
    (t : TinyDB.table) :
  Forall (fun d => exists q, d = new_record q) t ->
  Forall (fun d => exists q, d = new_record q) (validate_db dir listing t).
Proof.
  revert t. induction listing as [|img listing IH]; intros t Hn; [done|].
  simpl. apply IH. destruct (is_image img); [|done].
  by apply validate_image_all_new.
Qed.

Lemma validate_db_nonempty (dir : string) (listing : list string)
    (t : TinyDB.table) :
  existsb is_image listing = true ->
  validate_db dir listing t <> [].
Proof.
  revert t. induction listing as [|img listing IH]; intros t He; [done|].
  simpl in *. destruct (is_image img); [|by apply IH].
  intros Hnil.
  pose proof (validate_db_length INITIAL_ELO_SCORE dir listing
                (validate_image_db (path_join dir img) t)) as Hl.
  fold validate_db in Hl. rewrite Hnil in Hl.
  rewrite validate_image_length in Hl. simpl in Hl.
  destruct (TinyDB.search _ t) as [|d0 l0] eqn:Es; [lia|].
  destruct t; [done | simpl in Hl; lia].
Qed.

Lemma dom_new_record (p : string) :
  dom (new_record p) = list_to_set COLUMNS.
Proof.
  unfold EloPic.new_record, COLUMNS.
  rewrite !dom_insert_L, dom_singleton_L. simpl. set_solver.
Qed.

End FullRecords.

(** X11 (full records).  Every record the program makes has all four
    columns: a directory
    without [elopic.data] loads into such a store, and from any store of
    full records every run of calls gives a store of full records. *)
Theorem built_stores_have_full_records (INITIAL_ELO_SCORE : pyval)
    (D : EloPic.directory) (cs : list call) (self : EloPic.EloPicDB) :
  EloPic.dir_data D = TinyDB.NoFile ->
  Forall full_record (EloPic._db self) ->
  (exists s, EloPic.load_from_disk INITIAL_ELO_SCORE D = Returns s /\
             Forall full_record
               (EloPic._db (after_all INITIAL_ELO_SCORE cs s))) /\
  Forall full_record (EloPic._db (after_all INITIAL_ELO_SCORE cs self)).
Proof.
  intros HD Hf. split; [|by apply after_all_full].
  eexists. split; [apply load_from_disk_run; by rewrite HD|].
  apply after_all_full. simpl. apply validate_db_full. constructor.
Qed.

(** X12 (to_list).  [to_list] returns exactly on the stores of full records, with one row
    of four values per record; if some record lacks a column it raises
    [KeyError] on a column name.  It never changes the store. *)
Theorem to_list_returns_iff_full (self : EloPic.EloPicDB) :
  (Forall full_record (EloPic._db self) ->
   exists rows,
     EloPic.to_list self = (self, Returns rows) /\
     length rows = length (EloPic._db self) /\
     Forall (fun row => length row = 4%nat) rows) /\
  (~ Forall full_record (EloPic._db self) ->
   exists k, In k COLUMNS /\
             EloPic.to_list self = (self, Raises (mk_exc KeyError k))).
Proof.
  split.
  - intros Hf. destruct (collect_rows_full _ Hf) as (rows & Hr & Hl & Ha).
    exists rows. rewrite to_list_run, Hr. by repeat split.
  - intros Hnf. destruct (collect_rows_not_full _ Hnf) as (k & Hk & Hr).
    exists k. by rewrite to_list_run, Hr.
Qed.

(** X13 (get_headers).  [get_headers] after the first load of a directory: with at least one
    image file in the listing it returns the four column names, with none
    the store is empty and it raises [IndexError]. *)
Theorem get_headers_after_first_load (INITIAL_ELO_SCORE : pyval)
    (D : EloPic.directory) :
  EloPic.dir_data D = TinyDB.NoFile ->
  exists s : EloPic.EloPicDB,
    EloPic.load_from_disk INITIAL_ELO_SCORE D = Returns s /\
    EloPic.get_headers s
    = (s, if existsb EloPic.is_image (EloPic.dir_listing D)
          then Returns (list_to_set COLUMNS)
          else Raises (mk_exc IndexError "list index out of range")).
Proof.
  intros HD. eexists. split; [apply load_from_disk_run; by rewrite HD|].
  unfold EloPic.get_headers, EloPic.bind, EloPic.db_read, EloPic.lift,
    list_getitem, TinyDB.all. simpl.
  destruct (existsb EloPic.is_image (EloPic.dir_listing D)) eqn:He.
  - pose proof (validate_db_nonempty INITIAL_ELO_SCORE (EloPic.dir_abspath D)
                  _ [] He) as Hne.
    pose proof (validate_db_all_new INITIAL_ELO_SCORE (EloPic.dir_abspath D)
                  (EloPic.dir_listing D) [] (List.Forall_nil _)) as Hall.
    destruct (validate_db _ _ _ _) as [|d t]; [done|].
    inversion_clear Hall as [|? ? [q ->] _]. simpl.
    unfold EloPic.ret. by rewrite dom_new_record.
  - rewrite validate_db_no_images; [done|].
    apply Forall_forall. intros img Himg.
    destruct (EloPic.is_image img) eqn:E; [|done].
    assert (existsb EloPic.is_image (EloPic.dir_listing D) = true) as Ht
      by (apply existsb_exists; exists img; split;
          [by apply list_elem_of_In | done]).
    congruence.
Qed.

(** ** The first load of a directory *)

Section FirstLoad.

Variable INITIAL_ELO_SCORE : pyval.

Import EloPic.

Abbreviation new_record := (EloPic.new_record INITIAL_ELO_SCORE).
Abbreviation validate_image_db := (Props.validate_image_db INITIAL_ELO_SCORE).
Abbreviation validate_db := (Props.validate_db INITIAL_ELO_SCORE).

Lemma append_inj_l (s a b : string) : s +:+ a = s +:+ b -> a = b.
Proof.
  induction s as [|c s IH]; simpl; [done|].
  intros H. injection H as H. by apply IH.
Qed.

(** Two names of one directory, neither starting with a slash, join to
    different paths. *)
Lemma path_join_inj (dir a b : string) :
  startswith a "/" = false -> startswith b "/" = false ->
  path_join dir a = path_join dir b -> a = b.
Proof.
  intros Ha Hb. unfold path_join. rewrite Ha, Hb.
  destruct (String.eqb dir "" || endswith dir "/"); intros H.
  - by apply append_inj_l in H.
  - apply append_inj_l in H. by injection H.
Qed.

Lemma search_new_records (p : string) (ps : list string) :
  ~ In p ps ->
  TinyDB.search (has_path p) (List.map new_record ps) = [].
Proof.
  induction ps as [|q ps IH]; intros Hnot; [done|].
  simpl. rewrite has_path_new_record.
  rewrite bool_decide_eq_false_2.
  - apply IH. intros Hin. apply Hnot. by right.
  - intros Heq. apply Hnot. left. congruence.
Qed.

Lemma validate_db_fresh (dir : string) (listing : list string)
    (acc : list string) :
  NoDup (acc ++ image_paths dir listing) ->
  validate_db dir listing (List.map new_record acc)
  = List.map new_record (acc ++ image_paths dir listing).
Proof.
  revert acc. induction listing as [|img listing IH]; intros acc Hnd.
  - unfold image_paths. simpl. by rewrite app_nil_r.
  - unfold image_paths in *. simpl in *. destruct (is_image img); [|by apply IH].
    simpl in Hnd.
    assert (~ In (path_join dir img) acc) as Hnot.
    { apply NoDup_app in Hnd as (_ & Hdisj & _). intros Hin.
      apply list_elem_of_In in Hin. apply (Hdisj _ Hin). by left. }
    unfold Props.validate_image_db. rewrite search_new_records by done.
    unfold TinyDB.insert.
    change [new_record (path_join dir img)]
      with (List.map new_record [path_join dir img]).
    rewrite <- List.map_app. rewrite IH.
    + by rewrite <- app_assoc.
    + by rewrite <- app_assoc.
Qed.

Lemma image_paths_NoDup (dir : string) (listing : list string) :
  NoDup listing ->
  Forall (fun img => startswith img "/" = false) listing ->
  NoDup (image_paths dir listing).
Proof.
  intros Hnd Hs. unfold image_paths.
  induction Hnd as [|img listing Hnot Hnd IH]; simpl; [constructor|].
  inversion_clear Hs as [|? ? Himg Hrest].
  destruct (is_image img); [|by apply IH].
  simpl. constructor; [|by apply IH].
  intros Hin. apply list_elem_of_In, in_map_iff in Hin as (b & Hb & Hin).
  apply List.filter_In in Hin as [Hin _].
  rewrite Forall_forall in Hrest. apply list_elem_of_In in Hin.
  apply path_join_inj in Hb; [|by apply Hrest | done].
  by subst b.
Qed.

End FirstLoad.

(** X1 (first load).  The first load of a directory makes exactly one
    record per image file:
    without [elopic.data], and with a listing of different names none of
    which starts with a slash (as [listdir] gives them), the store after
    [load_from_disk] holds the new record of each image file, in the order
    of the listing, and nothing else. *)
Theorem first_load_one_record_per_image (INITIAL_ELO_SCORE : pyval)
    (D : EloPic.directory) :
  EloPic.dir_data D = TinyDB.NoFile ->
  NoDup (EloPic.dir_listing D) ->
  Forall (fun img => startswith img "/" = false) (EloPic.dir_listing D) ->
  EloPic.load_from_disk INITIAL_ELO_SCORE D
  = Returns
      {| EloPic._db :=
           List.map (EloPic.new_record INITIAL_ELO_SCORE)
             (image_paths (EloPic.dir_abspath D) (EloPic.dir_listing D));
         EloPic._dir := EloPic.dir_abspath D |}.
Proof.
  intros HD Hnd Hs.
  rewrite (load_from_disk_run _ _ []) by (by rewrite HD).
  f_equal. f_equal.
  apply (validate_db_fresh INITIAL_ELO_SCORE _ _ []). simpl.
  by apply image_paths_NoDup.
Qed.

(** ** Which files are images *)

Section Extensions.

Lemma length_append (a b : string) :
  String.length (a +:+ b) = (String.length a + String.length b)%nat.
Proof. induction a as [|c a IH]; simpl; [done | by rewrite IH]. Qed.

Lemma substring_all (b : string) : substring 0 (String.length b) b = b.
Proof. induction b as [|c b IH]; simpl; [done | by rewrite IH]. Qed.

Lemma substring_append_r (a b : string) :
  substring (String.length a) (String.length b) (a +:+ b) = b.
Proof. induction a as [|c a IH]; simpl; [apply substring_all | done]. Qed.

Lemma substring_split (k : nat) (s : string) :
  (k <= String.length s)%nat ->
  s = substring 0 k s +:+ substring k (String.length s - k) s.
Proof.
  revert k. induction s as [|c s IH]; intros k Hk; simpl in *.
  - by destruct k.
  - destruct k as [|k]; simpl.
    + by rewrite substring_all.
    + change (String c s = String c (substring 0 k s
                +:+ substring k (String.length s - k) s)).
      f_equal. apply IH. lia.
Qed.

(** [s.endswith(suffix)] holds exactly when [s] is something followed by
    [suffix]. *)
Lemma endswith_spec (s suffix : string) :
  endswith s suffix = true <-> exists stem, s = stem +:+ suffix.
Proof.
  unfold endswith. rewrite andb_true_iff, Nat.leb_le, String.eqb_eq. split.
  - intros [Hle Hsub].
    exists (substring 0 (String.length s - String.length suffix) s).
    pose proof (substring_split (String.length s - String.length suffix) s)
      as Hsp.
    replace (String.length s - (String.length s - String.length suffix))%nat
      with (String.length suffix) in Hsp by lia.
    rewrite Hsub in Hsp. apply Hsp. lia.
  - intros [stem ->]. rewrite length_append. split; [lia|].
    replace (String.length stem + String.length suffix - String.length suffix)%nat
      with (String.length stem) by lia.
    apply substring_append_r.
Qed.

Lemma lower_ascii_idemp (c : ascii) :
  lower_ascii (lower_ascii c) = lower_ascii c.
Proof. destruct c as [[] [] [] [] [] [] [] []]; reflexivity. Qed.

Lemma lower_idemp (s : string) : lower (lower s) = lower s.
Proof.
  induction s as [|c s IH]; simpl; [done|].
  by rewrite lower_ascii_idemp, IH.
Qed.

End Extensions.

(** X4 (image files).  The files [validate] looks at are those whose name, in lower case, ends
    in [.jpg] or [.jpeg]; the case of the letters in the name plays no
    part. *)
Theorem is_image_spec (img : string) :
  (EloPic.is_image img = true <->
   exists stem, lower img = stem +:+ ".jpg" \/ lower img = stem +:+ ".jpeg") /\
  EloPic.is_image (lower img) = EloPic.is_image img.
Proof.
  split.
  - unfold EloPic.is_image, EloPic.ELOPIC_EXTENSIONS. simpl.
    rewrite orb_false_r, orb_true_iff, !endswith_spec. split.
    + intros [[stem H]|[stem H]]; exists stem; auto.
    + intros [stem [H|H]]; [left|right]; by exists stem.
  - unfold EloPic.is_image. by rewrite lower_idemp.
Qed.

(** ** More on the top-x query *)

Section TopX.

Import EloPic.

Lemma collect_Raises {A B} (f : A -> outcome B) (err : exc) (l : list A) :
  (forall a e, f a = Raises e -> e = err) ->
  (exists a e, In a l /\ f a = Raises e) ->
  collect f l = Raises err.
Proof.
  intros Hone. induction l as [|a l IH]; intros (b & e & Hin & Hb).
  - destruct Hin.
  - simpl. destruct (f a) as [y|e'] eqn:Ea.
    + rewrite IH; [done|]. destruct Hin as [->|Hin]; [congruence|].
      by exists b, e.
    + by rewrite (Hone _ _ Ea).
Qed.

Lemma collect_take {A B} (f : A -> outcome B) (k : nat) (l : list A)
    (r : list B) :
  collect f l = Returns r -> collect f (take k l) = Returns (take k r).
Proof.
  revert k r. induction l as [|a l IH]; intros k r H; simpl in H.
  - inversion H. by destruct k.
  - destruct (f a) as [y|] eqn:Ea; [|done].
    destruct (collect f l) as [ys|] eqn:El; [|done].
    inversion H. destruct k as [|k]; simpl; [done|].
    by rewrite Ea, (IH k ys).
Qed.

Lemma collect_length {A B} (f : A -> outcome B) (l : list A) (r : list B) :
  collect f l = Returns r -> length r = length l.
Proof. intros H. apply collect_Forall2, Forall2_length in H. done. Qed.

Lemma collect_slice_to {A B} (f : A -> outcome B) (x : Z) (l : list A)
    (r : list B) :
  collect f l = Returns r ->
  collect f (slice_to x l) = Returns (slice_to x r).
Proof.
  intros H. unfold slice_to. rewrite (collect_length _ _ _ H).
  destruct (0 <=? x); by apply collect_take.
Qed.

Lemma collect_In {A B} (f : A -> outcome B) (l : list A) (r : list B)
    (b : B) :
  collect f l = Returns r -> In b r ->
  exists a, In a l /\ f a = Returns b.
Proof.
  intros H Hb. apply collect_Forall2 in H.
  apply list_elem_of_In, list_elem_of_lookup in Hb as [i Hi].
  destruct (Forall2_lookup_r _ _ _ _ _ H Hi) as (a & Ha & Hf).
  exists a. split; [|done].
  apply list_elem_of_In. by eapply list_elem_of_lookup_2.
Qed.

Lemma In_slice_to {A} (x : Z) (l : list A) (a : A) :
  In a (slice_to x l) -> In a l.
Proof.
  assert (Htake : forall k, In a (take k l) -> In a l).
  { intros k H. rewrite <- (take_drop k l). apply in_or_app. by left. }
  unfold slice_to. destruct (0 <=? x); apply Htake.
Qed.

(** What [sorted] returns is a rearrangement of its input. *)
Lemma sorted_Returns_perm {A} (key : A -> outcome pyval) (reverse : bool)
    (l s : list A) :
  sorted key reverse l = Returns s -> Permutation s l.
Proof.
  unfold sorted.
  set (dec := fun a => match key a with
                       | Returns k => Returns (k, a)
                       | Raises err => Raises err
                       end).
  destruct (collect dec l) as [kl|] eqn:Ekl; [|done].
  assert (List.map snd kl = l) as Hsnd.
  { clear -Ekl. revert kl Ekl. induction l as [|a l IH]; simpl; intros kl H.
    - by inversion H.
    - unfold dec at 1 in H. destruct (key a) as [k|]; [|done].
      destruct (collect dec l) as [kl'|]; [|done].
      inversion H. simpl. by rewrite (IH kl'). }
  intros H. inversion H. rewrite <- Hsnd. apply Permutation_map.
  destruct reverse.
  - rewrite <- Permutation_rev, stable_sort_perm. symmetry.
    apply Permutation_rev.
  - apply stable_sort_perm.
Qed.

(** After [ignore_pictures ps] no active record has a path of [ps]. *)
Lemma active_after_ignore (ps : list string) (t : TinyDB.table) (p : string)
    (d : dict) :
  In p ps -> In d (active (ignore_pictures_db ps t)) ->
  d !! "path" <> Some (VStr p).
Proof.
  intros Hp Hd Hpath. apply search_In in Hd as [Hd Hact].
  rewrite ignore_pictures_db_map in Hd.
  apply in_map_iff in Hd as (d0 & <- & Hd0).
  destruct (ignored_by ps d0) eqn:Hig.
  - unfold TinyDB.where_eq in Hact. by rewrite lookup_set_same in Hact.
  - rewrite (ignored_by_In ps p d0) in Hig;
      [done | done | by apply has_path_true].
Qed.

Lemma ignore_pictures_db_comm (ps qs : list string) (t : TinyDB.table) :
  ignore_pictures_db qs (ignore_pictures_db ps t)
  = ignore_pictures_db ps (ignore_pictures_db qs t).
Proof.
  rewrite !ignore_pictures_db_map, !List.map_map.
  apply List.map_ext. intros d.
  destruct (ignored_by ps d) eqn:Hp, (ignored_by qs d) eqn:Hq;
    rewrite ?ignored_by_union, ?Hp, ?Hq by done; done.
Qed.

Lemma ignore_pictures_db_idemp (ps : list string) (t : TinyDB.table) :
  ignore_pictures_db ps (ignore_pictures_db ps t) = ignore_pictures_db ps t.
Proof.
  rewrite !ignore_pictures_db_map, !List.map_map.
  apply List.map_ext. intros d.
  destruct (ignored_by ps d) eqn:Hp;
    rewrite ?ignored_by_union, ?Hp by done; [|done].
  by rewrite (assoc_L (∪)), (idemp_L (∪)).
Qed.

End TopX.

(** X14 (missing rating).  One active record without a rating breaks the
    query for every [x],
    also for [x = 0]: the sort keys of all active records are read before
    anything is cut, so [get_top_x_filepaths_by_rating] raises [KeyError]
    on [rating]. *)
Theorem top_x_raises_without_rating (self : EloPic.EloPicDB) (x : Z)
    (d : dict) :
  In d (active (EloPic._db self)) ->
  d !! "rating" = None ->
  EloPic.get_top_x_filepaths_by_rating x self
  = (self, Raises (mk_exc KeyError "rating")).
Proof.
  intros Hd Hr.
  unfold EloPic.get_top_x_filepaths_by_rating, EloPic.get_all, EloPic.bind,
    EloPic.db_read, EloPic.lift, sorted. simpl.
  fold (active (EloPic._db self)).
  rewrite (collect_Raises _ (mk_exc KeyError "rating")); [done| |].
  - intros a e. unfold itemgetter, dict_getitem.
    destruct (a !! "rating"); [done|]. congruence.
  - exists d, (mk_exc KeyError "rating"). split; [done|].
    unfold itemgetter, dict_getitem. by rewrite Hr.
Qed.

(** X15 (slices of the ranking).  The query for [x] is the Python slice
    [[:x]] of the full ranking: if
    the query for all active records returns [all_paths], the query for any
    [x] returns [all_paths[:x]], that is the first [x] paths for
    [0 <= x], all but the last [-x] for [x < 0]. *)
Theorem top_x_is_slice_of_full_ranking (self : EloPic.EloPicDB) (x : Z)
    (all_paths : list pyval) :
  EloPic.get_top_x_filepaths_by_rating
    (Z.of_nat (length (active (EloPic._db self)))) self
  = (self, Returns all_paths) ->
  EloPic.get_top_x_filepaths_by_rating x self
  = (self, Returns (slice_to x all_paths)).
Proof.
  unfold EloPic.get_top_x_filepaths_by_rating, EloPic.get_all, EloPic.bind,
    EloPic.db_read, EloPic.lift. simpl.
  fold (active (EloPic._db self)).
  destruct (sorted (itemgetter "rating") true (active (EloPic._db self)))
    as [ranked|] eqn:Es; [|done].
  pose proof (Permutation_length (sorted_Returns_perm _ _ _ _ Es)) as Hlen.
  rewrite slice_to_take by lia. rewrite Nat2Z.id, take_ge by lia.
  intros H.
  destruct (collect (fun item => dict_getitem item "path") ranked)
    as [ps|] eqn:Ec; [|done].
  inversion H; subst ps. by rewrite (collect_slice_to _ x _ _ Ec).
Qed.

(** X16 (ranking after ignoring).  Ignored pictures never show up in the
    ranking: after
    [ignore_pictures ps], no path of [ps] is among the paths the query
    returns. *)
Theorem top_x_excludes_ignored (ps : list string) (self : EloPic.EloPicDB)
    (x : Z) (paths : list pyval) (p : string) :
  EloPic.get_top_x_filepaths_by_rating x (fst (EloPic.ignore_pictures ps self))
  = (fst (EloPic.ignore_pictures ps self), Returns paths) ->
  In p ps ->
  ~ In (VStr p) paths.
Proof.
  rewrite ignore_pictures_run. simpl.
  unfold EloPic.get_top_x_filepaths_by_rating, EloPic.get_all, EloPic.bind,
    EloPic.db_read, EloPic.lift. simpl.
  fold (active (ignore_pictures_db ps (EloPic._db self))).
  destruct (sorted _ _ _) as [ranked|] eqn:Es; [|done].
  destruct (collect _ (slice_to x ranked)) as [ps'|] eqn:Ec; [|done].
  intros H Hp Hin. inversion H; subst ps'.
  destruct (collect_In _ _ _ _ Ec Hin) as (d & Hd & Hpath).
  apply In_slice_to in Hd.
  apply (Permutation_in _ (sorted_Returns_perm _ _ _ _ Es)) in Hd.
  apply (active_after_ignore ps _ p d Hp Hd).
  unfold dict_getitem in Hpath. destruct (d !! "path"); [|done]. congruence.
Qed.

(** X10 (ignoring composes).  Ignoring composes freely: two calls of [ignore_pictures] give the same
    store in either order, and a call repeated changes nothing more. *)
Theorem ignore_pictures_order_irrelevant (ps qs : list string)
    (self : EloPic.EloPicDB) :
  fst (EloPic.ignore_pictures qs (fst (EloPic.ignore_pictures ps self)))
  = fst (EloPic.ignore_pictures ps (fst (EloPic.ignore_pictures qs self))) /\
  fst (EloPic.ignore_pictures ps (fst (EloPic.ignore_pictures ps self)))
  = fst (EloPic.ignore_pictures ps self).
Proof.
  rewrite !ignore_pictures_run. simpl.
  by rewrite ignore_pictures_db_comm, ignore_pictures_db_idemp.
Qed.

(** X17 (sampling).  [get_random_images] offers the strategy the active
    records only: with
    a strategy that picks among the items it is given, every image returned
    is a record of the store whose [ignore] field is [0], and the store is
    unchanged. *)
Theorem random_images_are_active (STRATEGY : list dict -> Z -> list dict)
    (count : Z) (self : EloPic.EloPicDB) :
  (forall items n d, In d (STRATEGY items n) -> In d items) ->
  exists images,
    EloPic.get_random_images STRATEGY count self = (self, Returns images) /\
    forall d, In d images ->
      In d (EloPic._db self) /\ d !! "ignore" = Some (VInt 0).
Proof.
  intros Hpick. exists (STRATEGY (active (EloPic._db self)) count).
  split; [done|].
  intros d Hd. apply Hpick, search_In in Hd as [Hin Hact].
  split; [done|].
  unfold TinyDB.where_eq, py_eq in Hact.
  destruct (d !! "ignore") as [v|]; [|done].
  apply bool_decide_eq_true in Hact. by subst v.
Qed.

(** ** The further statements at concrete stores *)

Lemma first_load_one_record_per_image_witness :
  EloPic.dir_data Examples.fresh_dir = TinyDB.NoFile /\
  NoDup (EloPic.dir_listing Examples.fresh_dir) /\
  Forall (fun img => startswith img "/" = false)
         (EloPic.dir_listing Examples.fresh_dir) /\
  EloPic.load_from_disk Examples.initial_rating Examples.fresh_dir
  = Returns
      {| EloPic._db :=
           List.map (EloPic.new_record Examples.initial_rating)
             (image_paths "/pics" (EloPic.dir_listing Examples.fresh_dir));
         EloPic._dir := "/pics" |}.
Proof.
  assert (Hnd : NoDup (EloPic.dir_listing Examples.fresh_dir)).
  { apply (bool_decide_unpack _). vm_compute. exact I. }
  assert (Hs : Forall (fun img => startswith img "/" = false)
                      (EloPic.dir_listing Examples.fresh_dir)).
  { simpl. repeat (constructor; [reflexivity|]). constructor. }
  split; [reflexivity|]. split; [exact Hnd|]. split; [exact Hs|].
  exact (first_load_one_record_per_image Examples.initial_rating
           Examples.fresh_dir eq_refl Hnd Hs).
Defined.

Lemma validate_keeps_records_witness :
  EloPic._db Examples.small_store !! 1%nat
    = Some (Examples.record "/pics/b.jpg" 1600 3 0) /\
  exists (s : EloPic.EloPicDB) (d' : dict),
    EloPic.validate Examples.initial_rating ["b.jpg"; "e.jpg"] Examples.small_store
      = (s, Returns tt) /\
    EloPic._db s !! 1%nat = Some d' /\
    (forall k v, Examples.record "/pics/b.jpg" 1600 3 0 !! k = Some v ->
                 d' !! k = Some v).
Proof.
  destruct (validate_keeps_records Examples.initial_rating ["b.jpg"; "e.jpg"]
              Examples.small_store 1
              (Examples.record "/pics/b.jpg" 1600 3 0) eq_refl)
    as (s & d' & Hrun & _ & Hi & Hk & _).
  split; [reflexivity|]. exists s, d'. split; [exact Hrun|].
  split; [exact Hi | exact Hk].
Defined.

Lemma rating_changes_only_by_update_rating_witness :
  EloPic._db Examples.small_store !! 1%nat
    = Some (Examples.record "/pics/b.jpg" 1600 3 0) /\
  Examples.record "/pics/b.jpg" 1600 3 0 !! "path" = Some (VStr "/pics/b.jpg") /\
  Examples.record "/pics/b.jpg" 1600 3 0 !! "rating" = Some (VInt 1600) /\
  updates_of "/pics/b.jpg"
    [CallUpdateRating "/pics/a.jpg" (VInt 1516);
     CallIgnorePictures ["/pics/b.jpg"];
     CallLoadFromDisk "/pics" ["b.jpg"; "e.jpg"]] = 0 /\
  exists d',
    EloPic._db (after_all Examples.initial_rating
       [CallUpdateRating "/pics/a.jpg" (VInt 1516);
        CallIgnorePictures ["/pics/b.jpg"];
        CallLoadFromDisk "/pics" ["b.jpg"; "e.jpg"]] Examples.small_store)
      !! 1%nat = Some d' /\
    d' !! "path" = Some (VStr "/pics/b.jpg") /\
    d' !! "rating" = Some (VInt 1600).
Proof.
  split; [reflexivity|]. split; [reflexivity|]. split; [reflexivity|].
  split; [reflexivity|].
  exact (rating_changes_only_by_update_rating Examples.initial_rating
           [CallUpdateRating "/pics/a.jpg" (VInt 1516);
            CallIgnorePictures ["/pics/b.jpg"];
            CallLoadFromDisk "/pics" ["b.jpg"; "e.jpg"]]
           Examples.small_store 1 (Examples.record "/pics/b.jpg" 1600 3 0)
           "/pics/b.jpg" (VInt 1600) eq_refl eq_refl eq_refl eq_refl).
Defined.

Lemma ignored_record_stays_inactive_witness :
  EloPic._db Examples.small_store !! 2%nat
    = Some (Examples.record "/pics/c.jpg" 1700 1 1) /\
  Examples.record "/pics/c.jpg" 1700 1 1 !! "ignore" = Some (VInt 1) /\
  VInt 1 <> VInt 0 /\
  exists d' v',
    EloPic._db (after_all Examples.initial_rating
       [CallUpdateRating "/pics/c.jpg" (VInt 1716);
        CallValidate ["c.jpg"]] Examples.small_store) !! 2%nat = Some d' /\
    d' !! "ignore" = Some v' /\
    v' <> VInt 0.
Proof.
  assert (Hne : VInt 1 <> VInt 0) by discriminate.
  destruct (ignored_record_stays_inactive Examples.initial_rating
              [CallUpdateRating "/pics/c.jpg" (VInt 1716);
               CallValidate ["c.jpg"]]
              Examples.small_store 2 (Examples.record "/pics/c.jpg" 1700 1 1)
              (VInt 1) eq_refl eq_refl Hne)
    as (d' & v' & Hi & Hv & Hn & _).
  split; [reflexivity|]. split; [reflexivity|]. split; [exact Hne|].
  exists d', v'. split; [exact Hi|]. split; [exact Hv | exact Hn].
Defined.

Lemma update_rating_then_get_rating_witness :
  unique_paths (EloPic._db Examples.small_store) /\
  counted "/pics/b.jpg" 1 3 (EloPic._db Examples.small_store) /\
  exists s1 : EloPic.EloPicDB,
    EloPic.update_rating "/pics/b.jpg" (VInt 1616) Examples.small_store
      = (s1, Returns tt) /\
    EloPic.get_rating "/pics/b.jpg" s1 = (s1, Returns (VInt 1616)).
Proof.
  assert (Hu : unique_paths (EloPic._db Examples.small_store)).
  { apply unique_paths_NoDup. apply (bool_decide_unpack _). vm_compute. exact I. }
  assert (Hc : counted "/pics/b.jpg" 1 3 (EloPic._db Examples.small_store)).
  { eexists. split; [reflexivity|]. split; reflexivity. }
  split; [exact Hu|]. split; [exact Hc|].
  exact (update_rating_then_get_rating Examples.small_store "/pics/b.jpg"
           (VInt 1616) 1 3 Hu Hc).
Defined.

Lemma new_image_rating_witness :
  TinyDB.open (EloPic.dir_data Examples.fresh_dir) = Returns [] /\
  In "B.JPEG" (EloPic.dir_listing Examples.fresh_dir) /\
  EloPic.is_image "B.JPEG" = true /\
  TinyDB.search (has_path (path_join "/pics" "B.JPEG")) [] = [] /\
  exists s : EloPic.EloPicDB,
    EloPic.load_from_disk Examples.initial_rating Examples.fresh_dir
      = Returns s /\
    EloPic.get_rating "/pics/B.JPEG" s = (s, Returns (VInt 1500)).
Proof.
  assert (Hin : In "B.JPEG" (EloPic.dir_listing Examples.fresh_dir))
    by (simpl; auto).
  assert (Himg : EloPic.is_image "B.JPEG" = true) by reflexivity.
  split; [reflexivity|]. split; [exact Hin|]. split; [exact Himg|].
  split; [reflexivity|].
  exact (new_image_rating Examples.initial_rating Examples.fresh_dir
           [] "B.JPEG" eq_refl Hin Himg eq_refl).
Defined.

Lemma update_rating_without_seen_count_witness :
  let self := {| EloPic._db := [Examples.legacy_record];
                 EloPic._dir := "/pics" |} in
  unique_paths (EloPic._db self) /\
  EloPic._db self !! 0%nat = Some Examples.legacy_record /\
  Examples.legacy_record !! "path" = Some (VStr "/pics/a.jpg") /\
  Examples.legacy_record !! "seen_count" = None /\
  exists s1 : EloPic.EloPicDB,
    EloPic.update_rating "/pics/a.jpg" (VInt 1436) self
      = (s1, Raises (mk_exc KeyError "seen_count")) /\
    EloPic._db s1 !! 0%nat
      = Some ({[ "rating" := VInt 1436 ]} ∪ Examples.legacy_record).
Proof.
  intros self.
  assert (Hu : unique_paths (EloPic._db self)).
  { apply unique_paths_NoDup. apply (bool_decide_unpack _). vm_compute. exact I. }
  destruct (update_rating_without_seen_count self "/pics/a.jpg" (VInt 1436) 0
              Examples.legacy_record Hu eq_refl eq_refl eq_refl)
    as (s1 & Hrun & Hi & _).
  split; [exact Hu|]. split; [reflexivity|]. split; [reflexivity|].
  split; [reflexivity|]. exists s1. split; [exact Hrun | exact Hi].
Defined.

Lemma built_stores_have_full_records_witness :
  EloPic.dir_data Examples.fresh_dir = TinyDB.NoFile /\
  Forall full_record (EloPic._db Examples.small_store) /\
  (exists s,
      EloPic.load_from_disk Examples.initial_rating Examples.fresh_dir
      = Returns s /\
      Forall full_record
        (EloPic._db (after_all Examples.initial_rating
           [CallUpdateRating "/pics/a.jpg" (VInt 1516);
            CallIgnorePictures ["/pics/B.JPEG"]] s))) /\
  Forall full_record
    (EloPic._db (after_all Examples.initial_rating
       [CallUpdateRating "/pics/a.jpg" (VInt 1516);
        CallIgnorePictures ["/pics/B.JPEG"]] Examples.small_store)).
Proof.
  assert (Hf : Forall full_record (EloPic._db Examples.small_store)).
  { simpl.
    repeat (apply List.Forall_cons;
            [repeat (apply List.Forall_cons; [eexists; reflexivity|]);
             apply List.Forall_nil|]).
    apply List.Forall_nil. }
  split; [reflexivity|]. split; [exact Hf|].
  exact (built_stores_have_full_records Examples.initial_rating
           Examples.fresh_dir
           [CallUpdateRating "/pics/a.jpg" (VInt 1516);
            CallIgnorePictures ["/pics/B.JPEG"]]
           Examples.small_store eq_refl Hf).
Defined.

Lemma get_headers_after_first_load_witness :
  EloPic.dir_data Examples.fresh_dir = TinyDB.NoFile /\
  exists s : EloPic.EloPicDB,
    EloPic.load_from_disk Examples.initial_rating Examples.fresh_dir
      = Returns s /\
    EloPic.get_headers s = (s, Returns (list_to_set COLUMNS)).
Proof.
  split; [reflexivity|].
  exact (get_headers_after_first_load Examples.initial_rating
           Examples.fresh_dir eq_refl).
Defined.

Lemma top_x_raises_without_rating_witness :
  let unrated : dict := {[ "path" := VStr "/pics/a.jpg"; "ignore" := VInt 0 ]} in
  let self := {| EloPic._db := [Examples.record "/pics/b.jpg" 1600 3 0; unrated];
                 EloPic._dir := "/pics" |} in
  In unrated (active (EloPic._db self)) /\
  unrated !! "rating" = None /\
  EloPic.get_top_x_filepaths_by_rating 0 self
  = (self, Raises (mk_exc KeyError "rating")).
Proof.
  intros unrated self.
  assert (Hin : In unrated (active (EloPic._db self))).
  { change (active (EloPic._db self))
      with [Examples.record "/pics/b.jpg" 1600 3 0; unrated].
    right. by left. }
  split; [exact Hin|]. split; [reflexivity|].
  exact (top_x_raises_without_rating self 0 unrated Hin eq_refl).
Defined.

Lemma top_x_is_slice_of_full_ranking_witness :
  EloPic.get_top_x_filepaths_by_rating
    (Z.of_nat (length (active (EloPic._db Examples.small_store))))
    Examples.small_store
  = (Examples.small_store,
     Returns [VStr "/pics/b.jpg"; VStr "/pics/a.jpg"; VStr "/pics/d.jpg"]) /\
  EloPic.get_top_x_filepaths_by_rating (-1) Examples.small_store
  = (Examples.small_store,
     Returns (slice_to (-1)
                [VStr "/pics/b.jpg"; VStr "/pics/a.jpg"; VStr "/pics/d.jpg"])).
Proof.
  assert (Hfull : EloPic.get_top_x_filepaths_by_rating
                    (Z.of_nat (length (active (EloPic._db Examples.small_store))))
                    Examples.small_store
                  = (Examples.small_store,
                     Returns [VStr "/pics/b.jpg"; VStr "/pics/a.jpg";
                              VStr "/pics/d.jpg"]))
    by (vm_compute; reflexivity).
  split; [exact Hfull|].
  exact (top_x_is_slice_of_full_ranking Examples.small_store (-1) _ Hfull).
Defined.

Lemma top_x_excludes_ignored_witness :
  EloPic.get_top_x_filepaths_by_rating 2
    (fst (EloPic.ignore_pictures ["/pics/b.jpg"] Examples.small_store))
  = (fst (EloPic.ignore_pictures ["/pics/b.jpg"] Examples.small_store),
     Returns [VStr "/pics/a.jpg"; VStr "/pics/d.jpg"]) /\
  In "/pics/b.jpg" ["/pics/b.jpg"] /\
  ~ In (VStr "/pics/b.jpg") [VStr "/pics/a.jpg"; VStr "/pics/d.jpg"].
Proof.
  assert (Hrun : EloPic.get_top_x_filepaths_by_rating 2
                   (fst (EloPic.ignore_pictures ["/pics/b.jpg"] Examples.small_store))
                 = (fst (EloPic.ignore_pictures ["/pics/b.jpg"] Examples.small_store),
                    Returns [VStr "/pics/a.jpg"; VStr "/pics/d.jpg"]))
    by (vm_compute; reflexivity).
  assert (Hin : In "/pics/b.jpg" ["/pics/b.jpg"]) by (simpl; auto).
  split; [exact Hrun|]. split; [exact Hin|].
  exact (top_x_excludes_ignored ["/pics/b.jpg"] Examples.small_store 2 _
           "/pics/b.jpg" Hrun Hin).
Defined.

Lemma random_images_are_active_witness :
  let first_n : list dict -> Z -> list dict :=
    fun items n => take (Z.to_nat n) items in
  (forall items n d, In d (first_n items n) -> In d items) /\
  exists images,
    EloPic.get_random_images first_n 2 Examples.small_store
      = (Examples.small_store, Returns images) /\
    forall d, In d images ->
      In d (EloPic._db Examples.small_store) /\ d !! "ignore" = Some (VInt 0).
Proof.
  intros first_n.
  assert (Hpick : forall items n d, In d (first_n items n) -> In d items).
  { intros items n d H. unfold first_n in H.
    rewrite <- (take_drop (Z.to_nat n) items). apply in_or_app. by left. }
  split; [exact Hpick|].
  exact (random_images_are_active first_n 2 Examples.small_store Hpick).
Defined.

(** ** Ignoring pictures: what the queries show afterwards *)

(** C9 (ignore exclusion).  [ignore_pictures ps] always returns normally,
    also when some of the paths have no record.  It keeps every record at
    its position, sets [ignore = 1] on the records of the given paths and
    leaves the other records and all other fields as they were.
    Afterwards [get_all] returns no record of a given path, while [to_list]
    still has them: where it returned rows before, it returns the same rows
    with the flag of the given paths set; whenever it returns it has one
    row per record, the row of a record of a given path being that path,
    the record's counter and rating, and [1]; and it does return when every
    record has its four columns. *)
Theorem ignore_exclusion (ps : list string) (self : EloPic.EloPicDB) :
  exists s : EloPic.EloPicDB,
    EloPic.ignore_pictures ps self = (s, Returns tt) /\
    length (EloPic._db s) = length (EloPic._db self) /\
    (forall i d, EloPic._db self !! i = Some d ->
       exists d', EloPic._db s !! i = Some d' /\
                  (forall k, k <> "ignore" -> d' !! k = d !! k) /\
                  (if ignored_by ps d then d' !! "ignore" = Some (VInt 1)
                   else d' = d)) /\
    (exists act, EloPic.get_all s = (s, Returns act) /\
       forall p d, In p ps -> In d act -> d !! "path" <> Some (VStr p)) /\
    (forall rows, EloPic.to_list self = (self, Returns rows) ->
       EloPic.to_list s = (s, Returns (List.map (ignore_row ps) rows))) /\
    (forall rows', EloPic.to_list s = (s, Returns rows') ->
       length rows' = length (EloPic._db self) /\
       forall i d p,
         EloPic._db self !! i = Some d ->
         d !! "path" = Some (VStr p) ->
         In p ps ->
         exists sc ra,
           d !! "seen_count" = Some sc /\
           d !! "rating" = Some ra /\
           rows' !! i = Some [VStr p; sc; ra; VInt 1]) /\
    (Forall full_record (EloPic._db self) ->
     exists rows', EloPic.to_list s = (s, Returns rows')).
Proof.
  eexists. split; [apply ignore_pictures_run|]. simpl.
  split; [apply ignore_pictures_length|]. split; [|split; [|split; [|split]]].
  - intros i d Hi. rewrite ignore_pictures_lookup, Hi. simpl.
    eexists. split; [done|]. destruct (ignored_by ps d); [|done].
    split; [|apply lookup_set_same].
    intros k Hk. by rewrite lookup_set_other.
  - eexists. split; [reflexivity|]. intros p d Hp Hd Hpath.
    apply search_In in Hd as [Hd Hact].
    rewrite ignore_pictures_db_map in Hd.
    apply in_map_iff in Hd as (d0 & <- & Hd0).
    destruct (ignored_by ps d0) eqn:Hig.
    + unfold TinyDB.where_eq in Hact. by rewrite lookup_set_same in Hact.
    + rewrite (ignored_by_In ps p d0) in Hig;
        [done | done | by apply has_path_true].
  - intros rows. rewrite !to_list_run. simpl. intros Hrows.
    f_equal. rewrite ignore_pictures_db_map.
    apply (collect_map_Forall2 row_of); [apply row_of_ignored | congruence].
  - intros rows'. rewrite to_list_run. simpl. intros Hrows.
    assert (Hc : collect row_of (ignore_pictures_db ps (EloPic._db self))
                 = Returns rows') by congruence.
    apply collect_Forall2 in Hc. split.
    + apply Forall2_length in Hc. by rewrite <- Hc, ignore_pictures_length.
    + intros i d p Hi Hp Hin.
      assert (ignore_pictures_db ps (EloPic._db self) !! i
              = Some ({[ "ignore" := VInt 1 ]} ∪ d)) as Hi'.
      { rewrite ignore_pictures_lookup, Hi. simpl.
        by rewrite (ignored_by_In ps p d Hin (proj2 (has_path_true p d) Hp)). }
      destruct (Forall2_lookup_l _ _ _ _ _ Hc Hi') as (row & Hrow & Hof).
      destruct (row_of_Returns _ _ Hof)
        as (pa & sc & ra & ig & Hpa & Hsc & Hra & Hig & ->).
      rewrite lookup_set_other in Hpa, Hsc, Hra by done.
      rewrite lookup_set_same in Hig.
      exists sc, ra. split; [done|]. split; [done|].
      rewrite Hrow. congruence.
  - intros Hfull.
    destruct (collect_rows_full _ (ignore_pictures_full ps _ Hfull))
      as (rows' & Hrows' & _).
    exists rows'. rewrite to_list_run. simpl. by rewrite Hrows'.
Qed.
